(** * rag-aws-deployment: the in-memory vector index and the ingestion manifest

    A shallow embedding of [app/rag_utils.py] (the [SimpleInMemoryIndex]) and
    of [app/ingest_api.py] (the versioned manifest and its background worker),
    with the properties of the specification stated over it.

    Conventions of the embedding:
    - numpy [float64] arithmetic is idealised by the real numbers [R]
      (no rounding, no overflow, no NaN);
    - the collaborators that are not code of the repository (the sentence
      encoder, [np.argsort], the loader and splitter, the clock, [uuid4])
      are parameters, constrained only by what their documentation promises;
      [RagObs] also holds numpy's own quicksort, to run [np.argsort] on a
      concrete input;
    - a stored manifest is kept as the dictionary it parses to: a manifest
      file that cannot be read or parsed is outside the embedding;
    - a Python call that may raise returns [option] (in [RagUtils]) or runs in
      the state-and-exception monad [M] (in [IngestApi]). *)

From Stdlib Require Import Reals Lra Lia ZArith List String Ascii Permutation Sorted
  FunctionalExtensionality.
From stdpp Require Import gmap strings list pretty.

Open Scope string_scope.

(* ===================================================================== *)
(** * app/rag_utils.py *)
(* ===================================================================== *)

Module RagUtils.

(** What [_model.encode(..., convert_to_numpy=True)] hands back: a 1-D array,
    or a 2-D array of shape [(length rows, ncols)]. *)
Inductive ndarray : Type :=
| Array1 (v : list R)
| Array2 (ncols : nat) (rows : list (list R)).

(** A 2-D array; [ncols] is kept apart so that the shape [(0, d)] is not lost. *)
Record matrix : Type := Matrix { ncols : nat; rows : list (list R) }.

(** One element of the list returned by [query]. *)
Record Result (Metadata : Type) : Type :=
  mkResult { text : string; score : R; metadata : Metadata }.
Arguments mkResult {Metadata} _ _ _.
Arguments text {Metadata} _.
Arguments score {Metadata} _.
Arguments metadata {Metadata} _.

(** [np.linalg.norm(row)]: the square root of the sum of squares. *)
Definition sum_sq (v : list R) : R := fold_right (fun x acc => x * x + acc)%R 0%R v.
Definition norm (v : list R) : R := sqrt (sum_sq v).

(** One entry of [a @ b.T]. *)
Definition dot (u v : list R) : R :=
  fold_right (fun p acc => fst p * snd p + acc)%R 0%R (combine u v).

(** [norms[norms == 0] = 1.0] *)
Definition replace_zero (n : R) : R := if Req_dec_T n 0 then 1%R else n.

(** The literal [1e-12]. *)
Definition eps : R := (/ 1000000000000)%R.

(** Python's slice [l[:k]], negative [k] included. *)
Definition slice_to {A : Type} (k : Z) (l : list A) : list A :=
  if (0 <=? k)%Z then firstn (Z.to_nat k) l
  else firstn (length l - Z.to_nat (- k)) l.

Section Index.

(** [Dict[str, Any]] and its empty value [{}]. *)
Variable Metadata : Type.
Variable empty_metadata : Metadata.

(** [_model.encode], the sentence encoder. *)
Variable encode : list string -> ndarray.

(** [np.argsort] with its default [kind]. *)
Variable argsort : list R -> list nat.

(** [_embed_texts]: always 2-D, a 1-D answer becomes a single row. *)
Definition _embed_texts (texts : list string) : matrix :=
  match encode texts with
  | Array1 v => Matrix (length v) [v]
  | Array2 d rs => Matrix d rs
  end.

Record SimpleInMemoryIndex : Type := mkIndex {
  texts : list string;
  metadatas : list Metadata;
  embeddings : matrix;
  normed : matrix
}.

(** The divisors of the normalisation, after the zero norms were replaced. *)
Definition safe_norms (m : matrix) : list R :=
  map replace_zero (map norm (rows m)).

(** [self.embeddings / norms], row by row. *)
Definition normalize (m : matrix) : matrix :=
  Matrix (ncols m)
    (zip_with (fun r n => map (fun x => x / n)%R r) (rows m) (safe_norms m)).

(** [SimpleInMemoryIndex.__init__]; [metadatas or [...]] replaces both
    [None] and the empty list. *)
Definition __init__ (texts : list string) (metadatas : option (list Metadata))
  : SimpleInMemoryIndex :=
  let metadatas :=
    match metadatas with
    | None | Some [] => map (fun _ => empty_metadata) texts
    | Some ms => ms
    end in
  let embeddings := _embed_texts texts in
  mkIndex texts metadatas embeddings (normalize embeddings).

(** [q_emb / (norm(q_emb) + 1e-12)] *)
Definition normalize_query (q : list R) : list R :=
  map (fun x => x / (norm q + eps))%R q.

(** [sims] once it went through [squeeze] and the [ndim == 0] repair: a 1-D
    vector of scores, or an array that is still 2-D (kept by its rows). *)
Inductive squeezed : Type :=
| Vector (v : list R)
| Grid (g : list (list R)).

(** [(self.normed @ qnorm.T).squeeze()], with the repair of the 0-d case.
    The product of shapes [(n, d)] and [(d', m)] raises when [d <> d']. Its
    shape [(n, m)] loses every axis of length 1: with one query row it is the
    vector of the [n] scores of the rows of the index, with one index row it
    is the vector of that row's scores against the [m] query rows, and it
    stays 2-D otherwise. Each query row is divided by its own norm. *)
Definition squeezed_product (self : SimpleInMemoryIndex) (q_emb : matrix)
  : option squeezed :=
  if negb (Nat.eqb (ncols (normed self)) (ncols q_emb)) then None
  else match rows q_emb, rows (normed self) with
       | [q], rs => Some (Vector (map (fun r => dot r (normalize_query q)) rs))
       | qs, [r] => Some (Vector (map (fun q => dot r (normalize_query q)) qs))
       | qs, rs =>
           Some (Grid (map (fun r => map (fun q => dot r (normalize_query q)) qs) rs))
       end.

(** [sims] when it is the 1-D vector that the loop of [query] expects. *)
Definition similarities (self : SimpleInMemoryIndex) (q_emb : matrix)
  : option (list R) :=
  match squeezed_product self q_emb with
  | Some (Vector sims) => Some sims
  | _ => None
  end.

(** [np.argsort(-sims)[:top_k]] *)
Definition top_indices (sims : list R) (top_k : Z) : list nat :=
  slice_to top_k (argsort (map Ropp sims)).

(** The body of the [for i in top_idx] loop; a list index out of range
    raises [IndexError]. *)
Definition result_at (self : SimpleInMemoryIndex) (sims : list R) (i : nat)
  : option (Result Metadata) :=
  match nth_error (texts self) i, nth_error sims i, nth_error (metadatas self) i with
  | Some t, Some s, Some m => Some (mkResult t s m)
  | _, _, _ => None
  end.

Fixpoint collect {A B : Type} (f : A -> option B) (l : list A) : option (list B) :=
  match l with
  | [] => Some []
  | a :: l' =>
      match f a, collect f l' with
      | Some b, Some bs => Some (b :: bs)
      | _, _ => None
      end
  end.

(** [SimpleInMemoryIndex.query]. On a [sims] that stayed 2-D, [np.argsort]
    orders each row and the slice keeps whole rows; [int(i)] then raises
    [TypeError] on the first of them (a row here never has exactly one
    element), so that the answer is [[]] when the slice kept no row and a
    raise otherwise. *)
Definition query (self : SimpleInMemoryIndex) (qtext : string) (top_k : Z)
  : option (list (Result Metadata)) :=
  match squeezed_product self (_embed_texts [qtext]) with
  | None => None
  | Some (Vector sims) => collect (result_at self sims) (top_indices sims top_k)
  | Some (Grid g) =>
      match slice_to top_k g with
      | [] => Some []
      | _ :: _ => None
      end
  end.

(** A langchain [Document]; one without a [metadata] attribute would get
    [{}] from [getattr(c, "metadata", {})]. *)
Record Document : Type := mkDocument {
  page_content : string;
  doc_metadata : Metadata
}.

(** [create_or_load_index]; [persist_dir] is accepted and ignored. *)
Definition create_or_load_index (chunks : list Document) (persist_dir : option string)
  : SimpleInMemoryIndex :=
  let texts := map page_content chunks in
  let metadatas := map doc_metadata chunks in
  __init__ texts (Some metadatas).

End Index.

End RagUtils.

(* ===================================================================== *)
(** * Contracts of the collaborators of the index, and sample data *)
(* ===================================================================== *)

Module RagObs.
Import RagUtils.

(** What numpy promises of [argsort] whatever the [kind]: the indices
    [0 .. n-1], each once, in an order in which the keys ascend. The default
    [kind] is [quicksort], which numpy documents as not stable, so nothing is
    promised on the order of indices with equal keys. *)
Definition argsort_contract (argsort : list R -> list nat) : Prop :=
  forall a,
    Permutation (argsort a) (seq 0 (length a)) /\
    StronglySorted (fun i j => (nth i a 0 <= nth j a 0)%R) (argsort a).

(** What the specification asks of the encoder: one vector per text, all of
    one dimension [d], as a 2-D batch (shape [(0, d)] for no text). *)
Definition encoder_contract (encode : list string -> ndarray) (d : nat) : Prop :=
  forall texts, exists rs,
    encode texts = Array2 d rs /\ length rs = length texts /\
    Forall (fun r => length r = d) rs.

(** What a stable sort ([kind="stable"]) promises in addition: of two
    indices with equal keys the smaller comes first. *)
Definition stable_argsort_contract (argsort : list R -> list nat) : Prop :=
  forall a,
    Permutation (argsort a) (seq 0 (length a)) /\
    StronglySorted
      (fun i j => (nth i a 0 < nth j a 0)%R \/ ((nth i a 0 = nth j a 0)%R /\ i < j))
      (argsort a).

(** Descending by score. *)
Definition by_score_desc {Metadata : Type} (rs : list (Result Metadata)) : Prop :=
  StronglySorted (fun a b => (score a >= score b)%R) rs.

(** The ranking that the specification describes: along the list of indices,
    scores descend, and of two indices with the same score the smaller comes
    first. *)
Definition ranked_ties_by_index (sims : list R) (idx : list nat) : Prop :=
  StronglySorted
    (fun i j => (nth i sims 0 > nth j sims 0)%R \/
                ((nth i sims 0 = nth j sims 0)%R /\ i < j))
    idx.

(** Insertion of the index [i] in a list of indices ordered by key: before
    the first [j] that [before] puts it in front of. *)
Fixpoint insert_index (before : R -> R -> bool) (a : list R) (i : nat) (l : list nat)
  : list nat :=
  match l with
  | [] => [i]
  | j :: l' =>
      if before (nth i a 0%R) (nth j a 0%R) then i :: j :: l'
      else j :: insert_index before a i l'
  end.

Definition insertion_argsort (before : R -> R -> bool) (a : list R) : list nat :=
  fold_left (fun acc i => insert_index before a i acc) (seq 0 (length a)) [].

Definition Rltb (x y : R) : bool := if Rlt_dec x y then true else false.

(** A sort that meets [stable_argsort_contract]: what [kind="stable"] would
    give. *)
Definition argsort_stable : list R -> list nat := insertion_argsort Rltb.

(** ** numpy's [argsort] of [kind="quicksort"]

    [aquicksort_] of numpy's [npysort/quicksort.cpp], which [np.argsort] runs
    on [float64] keys where no vectorised kernel is dispatched: a quicksort
    of the array [tosort] of indices, with a median-of-three pivot and an
    explicit stack for the larger partition, that leaves partitions of at
    most [SMALL_QUICKSORT + 1] elements to an insertion sort, and a part
    reached with the depth limit used up to a heap sort. Pointers into
    [tosort] are positions in [Z]. The loops take a fuel, which the length of
    [tosort] covers. *)

Section Quicksort.

(** [Tag::less(v[i], v[j])], on two indices into the keys. *)
Variable less : nat -> nat -> bool.

Definition SMALL_QUICKSORT : Z := 16.

(** [*p] and [*p = i] *)
Definition deref (tosort : list nat) (p : Z) : nat := nth (Z.to_nat p) tosort 0.
Definition assign (p : Z) (i : nat) (tosort : list nat) : list nat :=
  <[Z.to_nat p := i]> tosort.

Definition INTP_SWAP (p q : Z) (tosort : list nat) : list nat :=
  assign q (deref tosort p) (assign p (deref tosort q) tosort).

(** The three conditional swaps that order [*pl], [*pm] and [*pr]. *)
Definition median_of_three (tosort : list nat) (pl pm pr : Z) : list nat :=
  let tosort :=
    if less (deref tosort pm) (deref tosort pl) then INTP_SWAP pm pl tosort
    else tosort in
  let tosort :=
    if less (deref tosort pr) (deref tosort pm) then INTP_SWAP pr pm tosort
    else tosort in
  if less (deref tosort pm) (deref tosort pl) then INTP_SWAP pm pl tosort
  else tosort.

(** [do { ++pi; } while (less(v[*pi], vp))]; [vp] is kept as the index of
    the pivot. *)
Fixpoint scan_up (fuel : nat) (tosort : list nat) (vp : nat) (pi : Z) : Z :=
  match fuel with
  | O => pi
  | S fuel =>
      let pi := (pi + 1)%Z in
      if less (deref tosort pi) vp then scan_up fuel tosort vp pi else pi
  end.

(** [do { --pj; } while (less(vp, v[*pj]))] *)
Fixpoint scan_down (fuel : nat) (tosort : list nat) (vp : nat) (pj : Z) : Z :=
  match fuel with
  | O => pj
  | S fuel =>
      let pj := (pj - 1)%Z in
      if less vp (deref tosort pj) then scan_down fuel tosort vp pj else pj
  end.

(** The [for (;;)] loop of the partition: scan from both ends, stop when the
    pointers meet, swap otherwise. Answers [tosort] and the final [pi]. *)
Fixpoint exchange (fuel : nat) (tosort : list nat) (vp : nat) (pi pj : Z)
  : list nat * Z :=
  match fuel with
  | O => (tosort, pi)
  | S fuel =>
      let pi := scan_up (length tosort) tosort vp pi in
      let pj := scan_down (length tosort) tosort vp pj in
      if (pj <=? pi)%Z then (tosort, pi)
      else exchange fuel (INTP_SWAP pi pj tosort) vp pi pj
  end.

(** The loop [while ((pr - pl) > SMALL_QUICKSORT)]: partition, push the
    larger part (with the decremented depth) and go on with the smaller. *)
Fixpoint partitions (fuel : nat) (tosort : list nat) (pl pr : Z)
    (stack : list (Z * Z * Z)) (cdepth : Z)
  : list nat * Z * Z * list (Z * Z * Z) :=
  match fuel with
  | O => (tosort, pl, pr, stack)
  | S fuel =>
      if (SMALL_QUICKSORT <? pr - pl)%Z then
        let pm := (pl + Z.shiftr (pr - pl) 1)%Z in
        let tosort := median_of_three tosort pl pm pr in
        let vp := deref tosort pm in
        let tosort := INTP_SWAP pm (pr - 1)%Z tosort in
        let '(tosort, pi) := exchange (length tosort) tosort vp pl (pr - 1)%Z in
        let tosort := INTP_SWAP pi (pr - 1)%Z tosort in
        let cdepth := (cdepth - 1)%Z in
        if (pi - pl <? pr - pi)%Z then
          partitions fuel tosort pl (pi - 1)%Z (((pi + 1)%Z, pr, cdepth) :: stack) cdepth
        else
          partitions fuel tosort (pi + 1)%Z pr ((pl, (pi - 1)%Z, cdepth) :: stack) cdepth
      else (tosort, pl, pr, stack)
  end.

(** [while (pj > pl && less(vp, v[*pk])) { *pj-- = *pk--; }], with
    [pk = pj - 1] throughout and [vi] the index being inserted. *)
Fixpoint shift_up (fuel : nat) (tosort : list nat) (pl : Z) (vi : nat) (pj : Z)
  : list nat * Z :=
  match fuel with
  | O => (tosort, pj)
  | S fuel =>
      if (pl <? pj)%Z && less vi (deref tosort (pj - 1)%Z) then
        shift_up fuel (assign pj (deref tosort (pj - 1)%Z) tosort) pl vi (pj - 1)%Z
      else (tosort, pj)
  end.

(** [for (pi = pl + 1; pi <= pr; ++pi)]: the insertion sort of [pl .. pr]. *)
Fixpoint insertion_sort (fuel : nat) (tosort : list nat) (pl pr pi : Z) : list nat :=
  match fuel with
  | O => tosort
  | S fuel =>
      if (pi <=? pr)%Z then
        let vi := deref tosort pi in
        let '(tosort, pj) := shift_up (length tosort) tosort pl vi pi in
        insertion_sort fuel (assign pj vi tosort) pl pr (pi + 1)%Z
      else tosort
  end.

(** The inner loop of both phases of [aheapsort_]: the index [tmp] sinks
    from position [i] of the heap [a[1 .. n]] (with [a = pl - 1]) until no
    child has a greater key. Answers [tosort] and the final [i]. *)
Fixpoint sift_down (fuel : nat) (tosort : list nat) (a : Z) (tmp : nat) (n i j : Z)
  : list nat * Z :=
  match fuel with
  | O => (tosort, i)
  | S fuel =>
      if (j <=? n)%Z then
        let j :=
          if (j <? n)%Z && less (deref tosort (a + j)%Z) (deref tosort (a + j + 1)%Z)
          then (j + 1)%Z else j in
        if less tmp (deref tosort (a + j)%Z) then
          sift_down fuel (assign (a + i)%Z (deref tosort (a + j)%Z) tosort)
                    a tmp n j (j + j)%Z
        else (tosort, i)
      else (tosort, i)
  end.

(** [for (l = n >> 1; l > 0; --l)]: build the heap. *)
Fixpoint build_heap (fuel : nat) (tosort : list nat) (a n l : Z) : list nat :=
  match fuel with
  | O => tosort
  | S fuel =>
      if (0 <? l)%Z then
        let tmp := deref tosort (a + l)%Z in
        let '(tosort, i) :=
          sift_down (length tosort) tosort a tmp n l (Z.shiftl l 1) in
        build_heap fuel (assign (a + i)%Z tmp tosort) a n (l - 1)%Z
      else tosort
  end.

(** [for (; n > 1;)]: move the maximum behind the heap and repair the heap. *)
Fixpoint pop_heap (fuel : nat) (tosort : list nat) (a n : Z) : list nat :=
  match fuel with
  | O => tosort
  | S fuel =>
      if (1 <? n)%Z then
        let tmp := deref tosort (a + n)%Z in
        let tosort := assign (a + n)%Z (deref tosort (a + 1)%Z) tosort in
        let n := (n - 1)%Z in
        let '(tosort, i) := sift_down (length tosort) tosort a tmp n 1%Z 2%Z in
        pop_heap fuel (assign (a + i)%Z tmp tosort) a n
      else tosort
  end.

(** numpy's [aheapsort_(v, pl, n)], on the [n] positions from [pl]. *)
Definition aheapsort_ (tosort : list nat) (pl n : Z) : list nat :=
  let a := (pl - 1)%Z in
  let tosort := build_heap (length tosort) tosort a n (Z.shiftr n 1) in
  pop_heap (length tosort) tosort a n.

(** The outer [while (1)]: sort [pl .. pr] (by heap sort once the depth limit
    is used up), then pop the next part. *)
Fixpoint sort_parts (fuel : nat) (tosort : list nat) (pl pr : Z)
    (stack : list (Z * Z * Z)) (cdepth : Z) : list nat :=
  match fuel with
  | O => tosort
  | S fuel =>
      let '(tosort, stack) :=
        if (cdepth <? 0)%Z then (aheapsort_ tosort pl (pr - pl + 1)%Z, stack)
        else
          let '(tosort, pl, pr, stack) :=
            partitions (length tosort) tosort pl pr stack cdepth in
          (insertion_sort (length tosort) tosort pl pr (pl + 1)%Z, stack) in
      match stack with
      | [] => tosort
      | (pl, pr, cdepth) :: stack => sort_parts fuel tosort pl pr stack cdepth
      end
  end.

(** [npy_get_msb]: the position of the highest set bit. *)
Definition npy_get_msb (unum : nat) : Z := Z.of_nat (Nat.log2 unum).

(** [aquicksort_(v, tosort, num)], on the [tosort = 0 .. num-1] that
    [np.argsort] starts from. *)
Definition aquicksort_ (num : nat) : list nat :=
  sort_parts (S num) (seq 0 num) 0%Z (Z.of_nat num - 1)%Z [] (npy_get_msb num * 2)%Z.

End Quicksort.

(** [Tag::less] of [float64] keys that are numbers: [a < b]. *)
Definition double_less (v : list R) (i j : nat) : bool :=
  match nth_error v i, nth_error v j with
  | Some a, Some b => Rltb a b
  | _, _ => false
  end.

(** [np.argsort(a)] by that quicksort. *)
Definition argsort_quicksort (a : list R) : list nat :=
  aquicksort_ (double_less a) (length a).

(** An encoder of dimension 1 that embeds every text as [[1.0]]. *)
Definition constant_encoder (texts : list string) : ndarray :=
  Array2 1 (map (fun _ => [1%R]) texts).

(** An encoder of dimension 2 with the rows [(3, 4)] and [(0, 0)], whatever
    the texts. *)
Definition two_row_encoder (texts : list string) : ndarray :=
  Array2 2 [[3%R; 4%R]; [0%R; 0%R]].

(** An encoder that answers the empty batch with the 1-D empty array (what
    [np.asarray([])] is), and any other batch with rows of dimension 1. *)
Definition flat_empty_encoder (texts : list string) : ndarray :=
  match texts with
  | [] => Array1 []
  | _ => Array2 1 (map (fun _ => [1%R]) texts)
  end.

(** An encoder that answers a batch of one text with no row at all, and any
    other batch with rows of dimension 1. *)
Definition rowless_query_encoder (texts : list string) : ndarray :=
  match texts with
  | [_] => Array2 1 []
  | _ => Array2 1 (map (fun _ => [1%R]) texts)
  end.

Definition chunk_a : Document unit := mkDocument unit "a" tt.
Definition chunk_b : Document unit := mkDocument unit "b" tt.

(** Eighteen chunks of one text, told apart by their metadata. *)
Definition same_text_chunks : list (Document nat) :=
  map (fun i => mkDocument nat "a" i) (seq 0 18).

End RagObs.

(* ===================================================================== *)
(** * app/rag_utils.py: the retriever; app/main.py: the two endpoints *)
(* ===================================================================== *)

Module MainApp.
Import RagUtils.

(** What a handler of [app/main.py] ends with: the dictionary it returns, an
    [HTTPException] it raises, or any other exception that leaves it. *)
Inductive reply (A : Type) : Type :=
| Reply (a : A)
| HTTPError (status_code : Z) (detail : string)
| Unhandled.
Arguments Reply {A} a.
Arguments HTTPError {A} status_code detail.
Arguments Unhandled {A}.

(** [class QueryRequest(BaseModel)]; [k] is 3 when the request has none. *)
Record QueryRequest : Type := mkQueryRequest {
  request_query : string;
  request_k : Z
}.

Record IngestResponse : Type := mkIngestResponse {
  message : string;
  chunks_indexed : Z
}.

Record QueryResponse : Type := mkQueryResponse {
  response_query : string;
  top_chunks : list string
}.

(** [class D]: the object [get_relevant_documents] wraps each text in. *)
Record D : Type := mkD { d_page_content : string }.

Definition SAMPLE_DOC_PATH : string := "app/sample_docs/sample.txt".

Section App.

Variable Metadata : Type.
Variable empty_metadata : Metadata.
Variable encode : list string -> ndarray.
Variable argsort : list R -> list nat.

(** [load_text_file] and [split_docs] of [app.rag_utils] wrap langchain's
    loader and splitter; [None] stands for a raise. *)
Variable load_text_file : string -> option (list (Document Metadata)).
Variable split_docs : list (Document Metadata) -> option (list (Document Metadata)).

(** [class Retriever], local to [build_retriever]. *)
Record Retriever : Type := mkRetriever { index : SimpleInMemoryIndex Metadata }.

Definition build_retriever (index : SimpleInMemoryIndex Metadata) : Retriever :=
  mkRetriever index.

(** [Retriever.get_relevant_documents(query, k)] *)
Definition get_relevant_documents (self : Retriever) (query : string) (k : Z)
  : option (list D) :=
  match RagUtils.query Metadata encode argsort (index self) query k with
  | None => None
  | Some docs => Some (map (fun d => mkD (text d)) docs)
  end.

(** The module globals [INDEX] and [RETRIEVER], and whether the sample file
    is there. *)
Record App : Type := mkApp {
  sample_exists : bool;
  INDEX : option (SimpleInMemoryIndex Metadata);
  RETRIEVER : option Retriever
}.

(** The state of the module when it is imported. *)
Definition startup (sample : bool) : App := mkApp sample None None.

(** [ingest_docs], the handler of [POST /ingest]. *)
Definition ingest_docs (app : App) : reply IngestResponse * App :=
  if negb (sample_exists app) then
    (HTTPError 404 "No sample file found in app/sample_docs/", app)
  else
    match load_text_file SAMPLE_DOC_PATH with
    | None => (Unhandled, app)
    | Some docs =>
        match split_docs docs with
        | None => (Unhandled, app)
        | Some chunks =>
            let INDEX := create_or_load_index Metadata empty_metadata encode chunks None in
            let RETRIEVER := build_retriever INDEX in
            (Reply (mkIngestResponse "Index built successfully!"
                                     (Z.of_nat (length chunks))),
             mkApp (sample_exists app) (Some INDEX) (Some RETRIEVER))
        end
    end.

(** [query_docs], the handler of [POST /query]; [r.page_content[:200]] keeps
    the first 200 characters. *)
Definition query_docs (request : QueryRequest) (app : App) : reply QueryResponse :=
  match RETRIEVER app with
  | None => HTTPError 400 "No index loaded. Run /ingest first."
  | Some retriever =>
      match get_relevant_documents retriever (request_query request) (request_k request) with
      | None => Unhandled
      | Some results =>
          let top_chunks := map (fun r => String.substring 0 200 (d_page_content r)) results in
          Reply (mkQueryResponse (request_query request) top_chunks)
      end
  end.

(** The module across requests. Only [POST /ingest] assigns the globals, so
    that a run is told by its [POST /ingest] requests: [samples] says,
    request by request, whether the sample file was there when the request
    came, and the answers are collected, oldest first. *)
Definition with_sample (sample : bool) (app : App) : App :=
  mkApp sample (INDEX app) (RETRIEVER app).

Fixpoint ingest_calls (samples : list bool) (app : App)
  : list (reply IngestResponse) * App :=
  match samples with
  | [] => ([], app)
  | sample :: samples =>
      let '(r, app) := ingest_docs (with_sample sample app) in
      let '(rs, app) := ingest_calls samples app in
      (r :: rs, app)
  end.

End App.

End MainApp.

(* ===================================================================== *)
(** * app/ingest_api.py *)
(* ===================================================================== *)

Module IngestApi.

(** ** Data *)

(** One element of [manifest["versions"]]. A key that the dictionary does not
    have yet ([indexed_at], [error]) and the JSON [null] of [index_path] are
    [None]. *)
Record ManifestEntry : Type := mkEntry {
  version : string;
  id_ : string;
  created_at : string;
  source : string;
  status : string;
  chunks_indexed : Z;
  index_path : option string;
  indexed_at : option string;
  error : option string
}.

Record Manifest : Type := mkManifest {
  dataset_id : string;
  versions : list ManifestEntry
}.

(** [class VersionIngestRequest(BaseModel)] *)
Record VersionIngestRequest : Type := mkRequest {
  req_dataset_id : string;
  req_source : string;
  req_version : option string;
  req_upsert : bool
}.

(** The dictionary that [ingest_version] returns. *)
Record Response : Type := mkResponse {
  resp_message : string;
  resp_dataset_id : string;
  resp_version : string;
  resp_task_id : string
}.

(** A call [_process_and_update_manifest(ds, version, source, id)] queued by
    [background_tasks.add_task]. *)
Record Task : Type := mkTask {
  task_dataset_id : string;
  task_version : string;
  task_source : string;
  task_entry_id : string
}.

(** A [datetime], by the two renderings the program takes of it:
    [.isoformat()] and [.strftime("v%Y%m%dT%H%M%S")]. *)
Record datetime : Type := mkDatetime {
  isoformat : string;
  strftime_version : string
}.

(** Exceptions: fastapi's [HTTPException], and any other subclass of
    [Exception] by its class name and the text [str(e)] gives. *)
Inductive exn : Type :=
| HTTPException (status_code : Z) (detail : string)
| PyError (cls : string) (message : string).

Definition str (e : exn) : string :=
  match e with
  | HTTPException c d => pretty c +:+ ": " +:+ d
  | PyError _ m => m
  end.

(** ** The world the module runs in *)

(** The environment variable [DATA_BUCKET], the bucket and the local files
    (a stored JSON document is kept as the manifest it parses to), whether the
    two stores can be written ([Some msg]: the call raises with that text),
    the clock and the UUID generator as streams with a read position, and the
    request's [BackgroundTasks]. *)
Record World : Type := mkWorld {
  S3_BUCKET : string;
  s3_objects : gmap string Manifest;
  s3_error : option string;
  files : gmap string Manifest;
  fs_error : option string;
  clock : nat -> datetime;
  clock_reads : nat;
  uuids : nat -> string;
  uuid_draws : nat;
  background_tasks : list Task
}.

Definition set_s3_objects (f : gmap string Manifest -> gmap string Manifest) (w : World) : World :=
  mkWorld (S3_BUCKET w) (f (s3_objects w)) (s3_error w) (files w) (fs_error w)
          (clock w) (clock_reads w) (uuids w) (uuid_draws w) (background_tasks w).

Definition set_files (f : gmap string Manifest -> gmap string Manifest) (w : World) : World :=
  mkWorld (S3_BUCKET w) (s3_objects w) (s3_error w) (f (files w)) (fs_error w)
          (clock w) (clock_reads w) (uuids w) (uuid_draws w) (background_tasks w).

Definition tick_clock (w : World) : World :=
  mkWorld (S3_BUCKET w) (s3_objects w) (s3_error w) (files w) (fs_error w)
          (clock w) (S (clock_reads w)) (uuids w) (uuid_draws w) (background_tasks w).

Definition tick_uuid (w : World) : World :=
  mkWorld (S3_BUCKET w) (s3_objects w) (s3_error w) (files w) (fs_error w)
          (clock w) (clock_reads w) (uuids w) (S (uuid_draws w)) (background_tasks w).

Definition push_task (t : Task) (w : World) : World :=
  mkWorld (S3_BUCKET w) (s3_objects w) (s3_error w) (files w) (fs_error w)
          (clock w) (clock_reads w) (uuids w) (uuid_draws w) (background_tasks w ++ [t]).

(** ** State and exceptions *)

Inductive outcome (A : Type) : Type :=
| Return (a : A)
| Raise (e : exn).
Arguments Return {A} a.
Arguments Raise {A} e.

Definition M (A : Type) : Type := World -> outcome A * World.

#[global] Instance M_ret : MRet M := fun A a w => (Return a, w).

#[global] Instance M_bind : MBind M := fun A B f m w =>
  match m w with
  | (Return a, w') => f a w'
  | (Raise e, w') => (Raise e, w')
  end.

Definition raise {A : Type} (e : exn) : M A := fun w => (Raise e, w).

(** [try: body except Exception as e: handler(e)]; what [body] did to the
    world before it raised stays done. *)
Definition try_except {A : Type} (body : M A) (handler : exn -> M A) : M A :=
  fun w =>
    match body w with
    | (Return a, w') => (Return a, w')
    | (Raise e, w') => handler e w'
    end.

(** A collaborator that returns or raises without touching the world. *)
Definition lift {A : Type} (r : outcome A) : M A := fun w => (r, w).

(** [datetime.datetime.utcnow()] and [str(uuid.uuid4())] *)
Definition utcnow : M datetime :=
  fun w => (Return (clock w (clock_reads w)), tick_clock w).

Definition uuid4 : M string :=
  fun w => (Return (uuids w (uuid_draws w)), tick_uuid w).

Definition add_task (t : Task) : M unit :=
  fun w => (Return tt, push_task t w).

(** ** Storage *)

(** Python's truth value of a string. *)
Definition truthy (s : string) : bool := negb (String.eqb s "").

(** [os.path.basename]: what follows the last ['/']. *)
Fixpoint after_last_slash (cur p : string) : string :=
  match p with
  | EmptyString => cur
  | String c p' =>
      if Ascii.eqb c "/" then after_last_slash "" p'
      else after_last_slash (cur +:+ String c "") p'
  end.

Definition basename (p : string) : string := after_last_slash "" p.

Definition manifest_key (dataset_id : string) : string :=
  "datasets/" +:+ dataset_id +:+ "/manifest.json".

Definition local_path (dataset_id : string) : string :=
  "./data/" +:+ dataset_id +:+ "/manifest.json".

(** [_get_manifest_local]. A file that exists is read as the manifest it
    parses to. [files] holds no file on which [open] or [json.load] would
    raise (one that cannot be read, or that is not JSON): on such a file the
    program raises, and the embedding has nothing to say. *)
Definition _get_manifest_local (path : string) : M Manifest :=
  fun w =>
    match files w !! path with
    | Some m => (Return m, w)
    | None => (Return (mkManifest (basename path) []), w)
    end.

Definition _put_manifest_local (path : string) (manifest : Manifest) : M unit :=
  fun w =>
    match fs_error w with
    | Some msg => (Raise (PyError "OSError" msg), w)
    | None => (Return tt, set_files (insert path manifest) w)
    end.

(** [s3.get_object]: [NoSuchKey] for an absent key, another client error
    when the service cannot be reached. *)
Definition s3_get_object (key : string) : M Manifest :=
  fun w =>
    match s3_error w with
    | Some msg => (Raise (PyError "ClientError" msg), w)
    | None =>
        match s3_objects w !! key with
        | Some m => (Return m, w)
        | None => (Raise (PyError "NoSuchKey" key), w)
        end
    end.

Definition s3_put_object (key : string) (manifest : Manifest) : M unit :=
  fun w =>
    match s3_error w with
    | Some msg => (Raise (PyError "ClientError" msg), w)
    | None => (Return tt, set_s3_objects (insert key manifest) w)
    end.

Definition get_manifest (dataset_id : string) : M Manifest :=
  fun w =>
    if truthy (S3_BUCKET w) then
      try_except (s3_get_object (manifest_key dataset_id))
        (fun e =>
           match e with
           | PyError "NoSuchKey" _ => mret (mkManifest dataset_id [])
           | _ => mret (mkManifest dataset_id [])
           end) w
    else _get_manifest_local (local_path dataset_id) w.

Definition put_manifest (dataset_id : string) (manifest : Manifest) : M unit :=
  fun w =>
    if truthy (S3_BUCKET w) then s3_put_object (manifest_key dataset_id) manifest w
    else _put_manifest_local (local_path dataset_id) manifest w.

(** ** The endpoint *)

Definition with_versions (m : Manifest) (vs : list ManifestEntry) : Manifest :=
  mkManifest (dataset_id m) vs.

(** [req.version or utcnow().strftime(...)]: the clock is read only when the
    request carries no label, or the empty one. *)
Definition effective_version (req : VersionIngestRequest) : M string :=
  match req_version req with
  | Some v => if truthy v then mret v else now ← utcnow; mret (strftime_version now)
  | None => now ← utcnow; mret (strftime_version now)
  end.

Definition has_version (v : string) (m : Manifest) : bool :=
  existsb (fun e => String.eqb (version e) v) (versions m).

Definition ingest_version (req : VersionIngestRequest) : M Response :=
  let ds := req_dataset_id req in
  v ← effective_version req;
  manifest ← get_manifest ds;
  if has_version v manifest && negb (req_upsert req) then
    raise (HTTPException 400 "version exists; set upsert=true to overwrite")
  else
    uid ← uuid4;
    now ← utcnow;
    let entry := mkEntry v uid (isoformat now) (req_source req) "PENDING" 0 None None None in
    let manifest' :=
      with_versions manifest
        (List.filter (fun e => negb (String.eqb (version e) v)) (versions manifest) ++ [entry]) in
    _ ← put_manifest ds manifest';
    _ ← add_task (mkTask ds v (req_source req) uid);
    mret (mkResponse "ingest started" ds v uid).

(** ** The background worker *)

(** The helpers imported from [app.rag_utils]; each may raise. *)
Class Pipeline : Type := {
  Docs : Type;
  Chunk : Type;
  Index : Type;
  load_text_file : string -> outcome Docs;
  split_docs : Docs -> outcome (list Chunk);
  create_or_load_index : list Chunk -> string -> outcome Index
}.

Definition matches (v entry_id : string) (e : ManifestEntry) : bool :=
  String.eqb (version e) v && String.eqb (id_ e) entry_id.

Definition set_indexed (e : ManifestEntry) (n : Z) (path now : string) : ManifestEntry :=
  mkEntry (version e) (id_ e) (created_at e) (source e)
          "INDEXED" n (Some path) (Some now) (error e).

Definition set_failed (e : ManifestEntry) (msg : string) : ManifestEntry :=
  mkEntry (version e) (id_ e) (created_at e) (source e)
          "FAILED" (chunks_indexed e) (index_path e) (indexed_at e) (Some msg).

(** The loop of the success path; the clock is read once per matching entry. *)
Fixpoint mark_indexed (v entry_id : string) (n : Z) (path : string)
    (vs : list ManifestEntry) : M (list ManifestEntry) :=
  match vs with
  | [] => mret []
  | e :: vs' =>
      e' ← (if matches v entry_id e
            then now ← utcnow; mret (set_indexed e n path (isoformat now))
            else mret e);
      vs'' ← mark_indexed v entry_id n path vs';
      mret (e' :: vs'')
  end.

(** The loop of the handler. *)
Definition mark_failed (v entry_id msg : string) (vs : list ManifestEntry)
  : list ManifestEntry :=
  map (fun e => if matches v entry_id e then set_failed e msg else e) vs.

Definition index_dir (dataset_id v : string) : string :=
  "/tmp/indexes/" +:+ dataset_id +:+ "/" +:+ v.

Definition s3_source_message : string :=
  "S3 source not supported in local dev; upload file to sample_docs/ and use local path for now".

Definition _process_and_update_manifest `{Pipeline}
    (dataset_id v source entry_id : string) : M unit :=
  try_except
    (_ ← (if String.prefix "s3://" source
          then raise (PyError "RuntimeError" s3_source_message)
          else mret tt);
     docs ← lift (load_text_file source);
     chunks ← lift (split_docs docs);
     idx ← lift (create_or_load_index chunks (index_dir dataset_id v));
     manifest ← get_manifest dataset_id;
     vs ← mark_indexed v entry_id (Z.of_nat (length chunks)) (index_dir dataset_id v)
                       (versions manifest);
     put_manifest dataset_id (with_versions manifest vs))
    (fun e =>
       manifest ← get_manifest dataset_id;
       put_manifest dataset_id
         (with_versions manifest (mark_failed v entry_id (str e) (versions manifest)))).

End IngestApi.

(* ===================================================================== *)
(** * Observations and sample data *)
(* ===================================================================== *)

Module IngestObs.
Import IngestApi.

(** What [get_manifest] answers in a world. *)
Definition stored (ds : string) (w : World) : Manifest :=
  match get_manifest ds w with
  | (Return m, _) => m
  | (Raise _, _) => mkManifest ds []
  end.

(** The store that [put_manifest] writes to accepts the write. *)
Definition writable (w : World) : Prop :=
  (if truthy (S3_BUCKET w) then s3_error w else fs_error w) = None.

(** Two worlds with the same storage (they may differ in the clock, the UUID
    generator and the queued tasks). *)
Definition same_store (w w' : World) : Prop :=
  S3_BUCKET w = S3_BUCKET w' /\ s3_objects w = s3_objects w' /\
  s3_error w = s3_error w' /\ files w = files w' /\ fs_error w = fs_error w'.

(** The entry carries both the version and the id the worker was given. *)
Definition is_target (v entry_id : string) (e : ManifestEntry) : Prop :=
  version e = v /\ id_ e = entry_id.

(** The steps of the worker that come before the manifest is read raise [e]. *)
Inductive pipeline_raises `{Pipeline} (source dir : string) (e : exn) : Prop :=
| raises_s3 :
    String.prefix "s3://" source = true ->
    e = PyError "RuntimeError" s3_source_message ->
    pipeline_raises source dir e
| raises_load :
    String.prefix "s3://" source = false ->
    load_text_file source = Raise e ->
    pipeline_raises source dir e
| raises_split docs :
    String.prefix "s3://" source = false ->
    load_text_file source = Return docs ->
    split_docs docs = Raise e ->
    pipeline_raises source dir e
| raises_index docs chunks :
    String.prefix "s3://" source = false ->
    load_text_file source = Return docs ->
    split_docs docs = Return chunks ->
    create_or_load_index chunks dir = Raise e ->
    pipeline_raises source dir e.

(** The same steps return [chunks]. *)
Definition pipeline_returns `{Pipeline} (source dir : string) (chunks : list Chunk) : Prop :=
  String.prefix "s3://" source = false /\
  exists docs idx,
    load_text_file source = Return docs /\
    split_docs docs = Return chunks /\
    create_or_load_index chunks dir = Return idx.

(** The steps of the worker before the manifest is read, as one value. *)
Definition prepare `{Pipeline} (source dir : string) : outcome (list Chunk) :=
  if String.prefix "s3://" source then Raise (PyError "RuntimeError" s3_source_message)
  else match load_text_file source with
       | Raise e => Raise e
       | Return docs =>
           match split_docs docs with
           | Raise e => Raise e
           | Return chunks =>
               match create_or_load_index chunks dir with
               | Raise e => Raise e
               | Return _ => Return chunks
               end
           end
       end.

(** The two halves of the worker: the body of [except], and the part of
    [try] that follows the pipeline. *)
Definition worker_handler (ds v eid : string) (e : exn) : M unit :=
  manifest ← get_manifest ds;
  put_manifest ds (with_versions manifest (mark_failed v eid (str e) (versions manifest))).

Definition worker_update `{Pipeline} (ds v eid : string) (chunks : list Chunk) : M unit :=
  manifest ← get_manifest ds;
  vs ← mark_indexed v eid (Z.of_nat (length chunks)) (index_dir ds v) (versions manifest);
  put_manifest ds (with_versions manifest vs).

(** The entry that [ingest_version] builds for the label [v], in the world
    [w1] reached once the label is known: the next UUID and the next reading
    of the clock. *)
Definition submitted_entry (req : VersionIngestRequest) (v : string) (w1 : World)
  : ManifestEntry :=
  mkEntry v (uuids w1 (uuid_draws w1)) (isoformat (clock w1 (clock_reads w1)))
          (req_source req) "PENDING" 0 None None None.

(** The error of a duplicate submission. *)
Definition DuplicateVersionError : exn :=
  HTTPException 400 "version exists; set upsert=true to overwrite".


(** What the success path does to one entry. *)
Definition indexed_from (v entry_id : string) (n : Z) (dir : string)
    (e e' : ManifestEntry) : Prop :=
  if matches v entry_id e then
    version e' = version e /\ id_ e' = id_ e /\
    created_at e' = created_at e /\ source e' = source e /\ error e' = error e /\
    status e' = "INDEXED" /\ chunks_indexed e' = n /\
    index_path e' = Some dir /\ is_Some (indexed_at e')
  else e' = e.

End IngestObs.

Module Samples.
Import IngestApi.

(** A clock and a UUID generator for the examples. *)
Definition sample_clock (n : nat) : datetime :=
  mkDatetime ("2024-01-01T00:00:0" +:+ pretty n) ("v20240101T00000" +:+ pretty n).

Definition sample_uuids (n : nat) : string := "uuid-" +:+ pretty n.

(** Local storage ([DATA_BUCKET] unset), nothing stored yet. *)
Definition fresh_world : World :=
  mkWorld "" ∅ None ∅ None sample_clock 0 sample_uuids 0 [].

Definition pending_v1 : ManifestEntry :=
  mkEntry "v1" "uuid-a" "2023-12-31T23:59:59" "sample_docs/a.txt" "PENDING" 0 None None None.

Definition pending_v2 : ManifestEntry :=
  mkEntry "v2" "uuid-b" "2023-12-31T23:59:59" "sample_docs/b.txt" "PENDING" 0 None None None.

(** Local storage holding a manifest for ["docs"] with two pending entries. *)
Definition docs_world : World :=
  mkWorld "" ∅ None
          {[ local_path "docs" := mkManifest "docs" [pending_v1; pending_v2] ]} None
          sample_clock 0 sample_uuids 0 [].

(** The same, on a file system that refuses writes. *)
Definition readonly_world : World :=
  mkWorld "" ∅ None
          {[ local_path "docs" := mkManifest "docs" [pending_v1; pending_v2] ]}
          (Some "[Errno 13] Permission denied")
          sample_clock 0 sample_uuids 0 [].

(** A pipeline that yields three chunks for any source. *)
Definition three_chunks : Pipeline := {|
  Docs := list string;
  Chunk := string;
  Index := unit;
  load_text_file := fun _ => Return ["doc"];
  split_docs := fun _ => Return ["c1"; "c2"; "c3"];
  create_or_load_index := fun _ _ => Return tt
|}.

(** A pipeline whose loader raises an exception that carries no message. *)
Definition silent_failure : Pipeline := {|
  Docs := list string;
  Chunk := string;
  Index := unit;
  load_text_file := fun _ => Raise (PyError "AssertionError" "");
  split_docs := fun _ => Return [];
  create_or_load_index := fun _ _ => Return tt
|}.

(** The bucket configured, holding the same manifest. *)
Definition bucket_world : World :=
  mkWorld "rag-data"
          {[ manifest_key "docs" := mkManifest "docs" [pending_v1; pending_v2] ]} None
          ∅ None sample_clock 0 sample_uuids 0 [].

(** The same, while the service cannot be reached. *)
Definition bucket_down_world : World :=
  mkWorld "rag-data"
          {[ manifest_key "docs" := mkManifest "docs" [pending_v1; pending_v2] ]}
          (Some "Could not connect to the endpoint URL")
          ∅ None sample_clock 0 sample_uuids 0 [].

Definition submit_v3 : VersionIngestRequest :=
  mkRequest "docs" "sample_docs/c.txt" (Some "v3") false.

Definition submit_s3_source : VersionIngestRequest :=
  mkRequest "docs" "s3://bucket/c.txt" (Some "v3") false.

Definition upsert_v1 : VersionIngestRequest :=
  mkRequest "docs" "sample_docs/a2.txt" (Some "v1") true.

Definition resubmit_v1 : VersionIngestRequest :=
  mkRequest "docs" "sample_docs/a2.txt" (Some "v1") false.

End Samples.

(* ===================================================================== *)
(** * Properties of app/ingest_api.py *)
(* ===================================================================== *)

Module IngestFacts.
Import IngestApi IngestObs.

(** ** Storage *)

Lemma get_manifest_stored ds w : get_manifest ds w = (Return (stored ds w), w).
Proof.
  unfold stored, get_manifest, try_except, s3_get_object, _get_manifest_local.
  destruct (truthy (S3_BUCKET w)).
  - destruct (s3_error w); [reflexivity|].
    destruct (s3_objects w !! manifest_key ds); [reflexivity|].
    cbn. destruct (String.eqb_spec "NoSuchKey" "NoSuchKey"); reflexivity.
  - destruct (files w !! local_path ds); reflexivity.
Qed.

Lemma stored_same_store ds w w' : same_store w w' -> stored ds w' = stored ds w.
Proof.
  intros (Hb & Ho & He & Hf & _).
  unfold stored, get_manifest, try_except, s3_get_object, _get_manifest_local.
  rewrite <- Hb, <- Ho, <- He, <- Hf.
  destruct (truthy (S3_BUCKET w)).
  - destruct (s3_error w); [reflexivity|].
    destruct (s3_objects w !! manifest_key ds); reflexivity.
  - destruct (files w !! local_path ds); reflexivity.
Qed.

Lemma same_store_refl w : same_store w w.
Proof. repeat split. Qed.

Lemma same_store_trans w1 w2 w3 : same_store w1 w2 -> same_store w2 w3 -> same_store w1 w3.
Proof.
  intros (?&?&?&?&?) (?&?&?&?&?). repeat split; etransitivity; eassumption.
Qed.

Lemma writable_same_store w w' : same_store w w' -> writable w -> writable w'.
Proof.
  intros (Hb & _ & He & _ & Hf). unfold writable. rewrite <- Hb, <- He, <- Hf. tauto.
Qed.

Lemma put_manifest_ok ds m w :
  writable w ->
  exists w', put_manifest ds m w = (Return tt, w') /\ stored ds w' = m /\
             background_tasks w' = background_tasks w /\ writable w'.
Proof.
  unfold writable, put_manifest, s3_put_object, _put_manifest_local.
  destruct (truthy (S3_BUCKET w)) eqn:Hb; intros Hw; rewrite Hw;
    eexists; (split; [reflexivity|]).
  - unfold stored, get_manifest, try_except, s3_get_object, writable. cbn. rewrite Hb.
    cbn. rewrite Hw, lookup_insert_eq. auto.
  - unfold stored, get_manifest, _get_manifest_local, writable. cbn. rewrite Hb.
    cbn. rewrite lookup_insert_eq. auto.
Qed.

Lemma put_manifest_raise ds m w e w' :
  put_manifest ds m w = (Raise e, w') -> w' = w /\ ~ writable w /\ exists c s, e = PyError c s.
Proof.
  unfold writable, put_manifest, s3_put_object, _put_manifest_local.
  destruct (truthy (S3_BUCKET w)).
  - destruct (s3_error w); intros [= <- <-]; eauto 6.
  - destruct (fs_error w); intros [= <- <-]; eauto 6.
Qed.

Lemma put_manifest_cases ds m w :
  (writable w /\ exists w', put_manifest ds m w = (Return tt, w') /\ stored ds w' = m /\
                            background_tasks w' = background_tasks w /\ writable w') \/
  (~ writable w /\ exists c s, put_manifest ds m w = (Raise (PyError c s), w)).
Proof.
  destruct (put_manifest ds m w) as [[[]|e] w'] eqn:E.
  - left. assert (Hw : writable w).
    { revert E. unfold writable, put_manifest, s3_put_object, _put_manifest_local.
      destruct (truthy (S3_BUCKET w)); [destruct (s3_error w)|destruct (fs_error w)];
        congruence. }
    split; [exact Hw|]. destruct (put_manifest_ok ds m w Hw) as (w2 & E2 & ?).
    exists w2. rewrite <- E2, E. rewrite E in E2. inversion E2; subst. auto.
  - right. destruct (put_manifest_raise _ _ _ _ _ E) as (-> & Hn & c & s & ->). eauto.
Qed.

(** ** The loops of the worker *)

Lemma matches_is_target v eid e : matches v eid e = true <-> is_target v eid e.
Proof.
  unfold matches, is_target. rewrite andb_true_iff, !String.eqb_eq. tauto.
Qed.

Lemma matches_not_target v eid e : matches v eid e = false <-> ~ is_target v eid e.
Proof. rewrite <- matches_is_target. destruct (matches v eid e); intuition congruence. Qed.

Lemma mark_indexed_spec v eid n dir vs w :
  exists vs' w',
    mark_indexed v eid n dir vs w = (Return vs', w') /\ same_store w w' /\
    background_tasks w' = background_tasks w /\
    Forall2 (indexed_from v eid n dir) vs vs'.
Proof.
  revert w. induction vs as [|e vs IH]; intros w.
  - exists [], w. cbn. repeat split; constructor.
  - cbn [mark_indexed]. unfold mbind, M_bind, mret, M_ret, utcnow.
    destruct (matches v eid e) eqn:Hm.
    + destruct (IH (tick_clock w)) as (vs' & w' & -> & Hs & Ht & HF).
      eexists _, w'. split; [reflexivity|]. split; [|split].
      * eapply same_store_trans; [|exact Hs]. repeat split.
      * rewrite Ht. reflexivity.
      * constructor; [|exact HF]. unfold indexed_from. rewrite Hm. cbn. eauto 10.
    + destruct (IH w) as (vs' & w' & -> & Hs & Ht & HF).
      eexists _, w'. split; [reflexivity|]. repeat split; try apply Hs; try exact Ht.
      constructor; [|exact HF]. unfold indexed_from. rewrite Hm. reflexivity.
Qed.

Lemma indexed_from_frame v eid n dir vs vs' :
  Forall2 (indexed_from v eid n dir) vs vs' ->
  Forall2 (fun e e' => ~ is_target v eid e -> e' = e) vs vs'.
Proof.
  induction 1 as [|e e' vs vs' He _ IH]; constructor; [|exact IH].
  intros Hn. apply matches_not_target in Hn. unfold indexed_from in He.
  rewrite Hn in He. exact He.
Qed.

Lemma mark_failed_frame v eid msg vs :
  Forall2 (fun e e' => ~ is_target v eid e -> e' = e) vs (mark_failed v eid msg vs).
Proof.
  induction vs as [|e vs IH]; cbn; constructor; [|exact IH].
  intros Hn. apply matches_not_target in Hn. rewrite Hn. reflexivity.
Qed.

Lemma frame_refl v eid vs :
  Forall2 (fun e e' : ManifestEntry => ~ is_target v eid e -> e' = e) vs vs.
Proof. induction vs; constructor; auto. Qed.

Lemma frame_no_target v eid vs vs' :
  Forall2 (fun e e' : ManifestEntry => ~ is_target v eid e -> e' = e) vs vs' ->
  (forall e, In e vs -> ~ is_target v eid e) ->
  vs' = vs.
Proof.
  induction 1 as [|e e' vs vs' He _ IH]; intros Hno; [reflexivity|].
  rewrite He by (apply Hno; left; reflexivity).
  rewrite IH by (intros x Hx; apply Hno; right; exact Hx). reflexivity.
Qed.

(** ** The worker, path by path *)

Lemma prepare_raises `{Pipeline} src dir e :
  pipeline_raises src dir e -> prepare src dir = Raise e.
Proof.
  unfold prepare. destruct 1 as [Hp ->|Hp Hl|docs Hp Hl Hs|docs chunks Hp Hl Hs Hc];
    rewrite Hp; try reflexivity; rewrite Hl; try reflexivity;
    rewrite Hs; try reflexivity; rewrite Hc; reflexivity.
Qed.

Lemma prepare_returns `{Pipeline} src dir chunks :
  pipeline_returns src dir chunks -> prepare src dir = Return chunks.
Proof.
  unfold prepare. intros (Hp & docs & idx & Hl & Hs & Hc).
  rewrite Hp, Hl, Hs, Hc. reflexivity.
Qed.

Lemma with_versions_same m : with_versions m (versions m) = m.
Proof. destruct m; reflexivity. Qed.

Lemma worker_unfold `{Pipeline} ds v src eid w :
  _process_and_update_manifest ds v src eid w =
  match prepare src (index_dir ds v) with
  | Return chunks => try_except (worker_update ds v eid chunks) (worker_handler ds v eid) w
  | Raise e => worker_handler ds v eid e w
  end.
Proof.
  unfold _process_and_update_manifest, prepare, try_except, worker_update, worker_handler,
    mbind, M_bind, lift, raise, mret, M_ret.
  destruct (String.prefix "s3://" src); [reflexivity|].
  destruct (load_text_file src) as [docs|e]; [|reflexivity].
  destruct (split_docs docs) as [chunks|e]; [|reflexivity].
  destruct (create_or_load_index chunks (index_dir ds v)) as [idx|e]; reflexivity.
Qed.

Lemma worker_handler_run ds v eid e w :
  (writable w /\ exists w',
     worker_handler ds v eid e w = (Return tt, w') /\
     stored ds w' =
       with_versions (stored ds w) (mark_failed v eid (str e) (versions (stored ds w))) /\
     background_tasks w' = background_tasks w) \/
  (~ writable w /\ exists c s, worker_handler ds v eid e w = (Raise (PyError c s), w)).
Proof.
  unfold worker_handler, mbind, M_bind. rewrite get_manifest_stored.
  destruct (put_manifest_cases ds
    (with_versions (stored ds w) (mark_failed v eid (str e) (versions (stored ds w)))) w)
    as [(Hw & w' & E & Hst & Ht & _)|(Hn & c & s & E)].
  - left. split; [exact Hw|]. exists w'. auto.
  - right. split; [exact Hn|]. eauto.
Qed.

Lemma worker_update_run `{Pipeline} ds v eid chunks w :
  (writable w /\ exists w' vs',
     worker_update ds v eid chunks w = (Return tt, w') /\
     stored ds w' = with_versions (stored ds w) vs' /\
     Forall2 (indexed_from v eid (Z.of_nat (length chunks)) (index_dir ds v))
             (versions (stored ds w)) vs' /\
     background_tasks w' = background_tasks w) \/
  (~ writable w /\ exists c s w',
     worker_update ds v eid chunks w = (Raise (PyError c s), w') /\ same_store w w' /\
     background_tasks w' = background_tasks w).
Proof.
  unfold worker_update, mbind, M_bind. rewrite get_manifest_stored.
  destruct (mark_indexed_spec v eid (Z.of_nat (length chunks)) (index_dir ds v)
              (versions (stored ds w)) w) as (vs' & w1 & -> & Hs & Ht & HF).
  destruct (put_manifest_cases ds (with_versions (stored ds w) vs') w1)
    as [(Hw & w' & E & Hst & Ht' & _)|(Hn & c & s & E)].
  - left. split.
    + eapply writable_same_store; [|exact Hw].
      destruct Hs as (?&?&?&?&?); repeat split; auto.
    + exists w', vs'. rewrite Ht', Ht. auto.
  - right. split.
    + intros Hw. apply Hn. eapply writable_same_store; eassumption.
    + exists c, s, w1. auto.
Qed.

(** The worker as a whole: where the manifest can be written it returns and
    leaves the re-read manifest with its entries updated; where it cannot,
    the write of the handler raises and the storage is as before. *)
Lemma worker_run `{Pipeline} ds v src eid w :
  let r := _process_and_update_manifest ds v src eid w in
  (writable w /\ r.1 = Return tt /\
   match prepare src (index_dir ds v) with
   | Return chunks =>
       exists vs', stored ds r.2 = with_versions (stored ds w) vs' /\
         Forall2 (indexed_from v eid (Z.of_nat (length chunks)) (index_dir ds v))
                 (versions (stored ds w)) vs'
   | Raise e =>
       stored ds r.2 =
         with_versions (stored ds w) (mark_failed v eid (str e) (versions (stored ds w)))
   end) \/
  (~ writable w /\ (exists c s, r.1 = Raise (PyError c s)) /\ same_store w r.2).
Proof.
  cbv zeta. rewrite worker_unfold.
  destruct (prepare src (index_dir ds v)) as [chunks|e].
  - unfold try_except.
    destruct (worker_update_run ds v eid chunks w)
      as [(Hw & w' & vs' & -> & Hst & HF & _)|(Hn & c & s & w1 & -> & Hs & _)].
    + left. cbn. eauto.
    + right. split; [exact Hn|].
      destruct (worker_handler_run ds v eid (PyError c s) w1)
        as [(Hw & _)|(_ & c' & s' & ->)].
      * exfalso. apply Hn. eapply writable_same_store; [|exact Hw].
        destruct Hs as (?&?&?&?&?); repeat split; auto.
      * cbn. eauto.
  - destruct (worker_handler_run ds v eid e w)
      as [(Hw & w' & -> & Hst & _)|(Hn & c & s & ->)].
    + left. cbn. auto.
    + right. cbn. split; [exact Hn|]. split; [eauto|apply same_store_refl].
Qed.


(** C10. When the pipeline returns and the manifest can be written, the
    worker returns, and entry by entry the stored manifest relates to the
    one read as [indexed_from] says: an entry that carries the version and
    the id keeps its [version], [id], [created_at] and [source] (and
    [error]) and gets [status], [chunks_indexed], [index_path] and
    [indexed_at] set; every other entry is written back as it was. *)
Theorem worker_success_sets_four_fields `{Pipeline} ds v src eid chunks w :
  pipeline_returns src (index_dir ds v) chunks ->
  writable w ->
  exists w',
    _process_and_update_manifest ds v src eid w = (Return tt, w') /\
    dataset_id (stored ds w') = dataset_id (stored ds w) /\
    Forall2 (indexed_from v eid (Z.of_nat (length chunks)) (index_dir ds v))
            (versions (stored ds w)) (versions (stored ds w')).
Proof.
  intros Hp Hw. apply prepare_returns in Hp.
  destruct (worker_run ds v src eid w) as [(_ & Hr & Hc)|(Hn & _)]; [|contradiction].
  rewrite Hp in Hc. destruct Hc as (vs' & Hst & HF).
  destruct (_process_and_update_manifest ds v src eid w) as [r w'] eqn:E.
  cbn in *. subst r. exists w'. rewrite Hst. cbn. auto.
Qed.

Lemma mark_failed_sets v eid msg vs :
  Forall2 (fun old new =>
             if matches v eid old
             then status new = "FAILED" /\ error new = Some msg
             else new = old)
          vs (mark_failed v eid msg vs).
Proof.
  induction vs as [|x xs IH]; cbn; constructor; [|exact IH].
  destruct (matches v eid x); cbn; auto.
Qed.

(** C2, as amended. When loading, splitting or index building raises [e]
    (the refusal of an [s3://] source included), and the handler's own read
    and write of the manifest return, the worker returns normally, and the
    stored entries are those read with every entry that carries the version
    and the id set to [FAILED] with [error] the text [str(e)], the others as
    they were. (A run whose handler cannot read or write the manifest is left
    out of the statement.) *)
Theorem worker_records_failure `{Pipeline} ds v src eid e w :
  pipeline_raises src (index_dir ds v) e ->
  get_manifest ds w = (Return (stored ds w), w) ->
  writable w ->
  exists w',
    _process_and_update_manifest ds v src eid w = (Return tt, w') /\
    versions (stored ds w') = mark_failed v eid (str e) (versions (stored ds w)) /\
    Forall2 (fun old new =>
               if matches v eid old
               then status new = "FAILED" /\ error new = Some (str e)
               else new = old)
            (versions (stored ds w)) (versions (stored ds w')).
Proof.
  intros He Hread Hw. apply prepare_raises in He.
  rewrite worker_unfold, He. unfold worker_handler.
  change (manifest ← get_manifest ds; ?k) with (mbind k (get_manifest ds)).
  unfold mbind, M_bind. rewrite Hread.
  destruct (put_manifest_ok ds
              (with_versions (stored ds w)
                 (mark_failed v eid (str e) (versions (stored ds w)))) w Hw)
    as (w' & Hput & Hst & _).
  exists w'. split; [exact Hput|]. rewrite Hst. cbn. split; [reflexivity|].
  apply mark_failed_sets.
Qed.

(** ** The endpoint *)

Lemma effective_version_spec req w v w1 :
  effective_version req w = (Return v, w1) ->
  same_store w w1 /\ background_tasks w1 = background_tasks w.
Proof.
  unfold effective_version, mbind, M_bind, mret, M_ret, utcnow.
  destruct (req_version req) as [l|]; [destruct (truthy l)|];
    intros [= <- <-]; split; try reflexivity; repeat split.
Qed.

Lemma effective_version_returns req w :
  exists v w1, effective_version req w = (Return v, w1).
Proof.
  unfold effective_version, mbind, M_bind, mret, M_ret, utcnow.
  destruct (req_version req) as [l|]; [destruct (truthy l)|]; eauto.
Qed.

Lemma has_version_In v m :
  has_version v m = true <-> exists e, In e (versions m) /\ version e = v.
Proof.
  unfold has_version. rewrite existsb_exists.
  split; intros (e & Hin & He); exists e; (split; [exact Hin|]);
    apply String.eqb_eq; exact He.
Qed.

Lemma ingest_version_unfold req w v w1 :
  effective_version req w = (Return v, w1) ->
  ingest_version req w =
  if has_version v (stored (req_dataset_id req) w) && negb (req_upsert req)
  then (Raise DuplicateVersionError, w1)
  else
    let entry := submitted_entry req v w1 in
    match put_manifest (req_dataset_id req)
            (with_versions (stored (req_dataset_id req) w)
               (List.filter (fun e => negb (String.eqb (version e) v))
                            (versions (stored (req_dataset_id req) w)) ++ [entry]))
            (tick_clock (tick_uuid w1)) with
    | (Return _, w2) =>
        (Return (mkResponse "ingest started" (req_dataset_id req) v (id_ entry)),
         push_task (mkTask (req_dataset_id req) v (req_source req) (id_ entry)) w2)
    | (Raise e, w2) => (Raise e, w2)
    end.
Proof.
  intros E. pose proof (effective_version_spec _ _ _ _ E) as [Hs _].
  unfold ingest_version, mbind, M_bind. rewrite E, get_manifest_stored.
  rewrite (stored_same_store _ _ _ Hs).
  destruct (has_version v (stored (req_dataset_id req) w) && negb (req_upsert req));
    [reflexivity|].
  unfold uuid4, utcnow, add_task, mret, M_ret, submitted_entry. cbn.
  destruct (put_manifest _ _ _) as [[[]|e] w2]; reflexivity.
Qed.

Lemma filter_other_versions_count v (vs : list ManifestEntry) :
  List.filter (fun e => String.eqb (version e) v)
              (List.filter (fun e => negb (String.eqb (version e) v)) vs) = [].
Proof.
  induction vs as [|e vs IH]; cbn; [reflexivity|].
  destruct (String.eqb (version e) v) eqn:E; cbn; [exact IH|]. rewrite E. exact IH.
Qed.

(** C3. An upsert for a label that the manifest already has completes where
    the manifest can be written; the stored list of versions is then the old
    one without the entries of that label, followed by one new [PENDING]
    entry (the next UUID, the next reading of the clock), so that it holds
    exactly one entry of the label, the last one. *)
Theorem upsert_leaves_single_entry req w v w1 :
  effective_version req w = (Return v, w1) ->
  req_upsert req = true ->
  (exists e, In e (versions (stored (req_dataset_id req) w)) /\ version e = v) ->
  writable w ->
  let ds := req_dataset_id req in
  let entry := submitted_entry req v w1 in
  exists w',
    ingest_version req w = (Return (mkResponse "ingest started" ds v (id_ entry)), w') /\
    versions (stored ds w') =
      (List.filter (fun e => negb (String.eqb (version e) v)) (versions (stored ds w))
       ++ [entry])%list /\
    List.filter (fun e => String.eqb (version e) v) (versions (stored ds w')) = [entry] /\
    status entry = "PENDING".
Proof.
  intros E Hu _ Hw ds entry. rewrite (ingest_version_unfold _ _ _ _ E), Hu.
  rewrite andb_false_r. cbv zeta. fold ds entry.
  pose proof (effective_version_spec _ _ _ _ E) as [Hs _].
  assert (Hw' : writable (tick_clock (tick_uuid w1))).
  { eapply writable_same_store; [|exact Hw].
    destruct Hs as (?&?&?&?&?); repeat split; auto. }
  destruct (put_manifest_ok ds
              (with_versions (stored ds w)
                 (List.filter (fun e => negb (String.eqb (version e) v))
                    (versions (stored ds w)) ++ [entry])) _ Hw')
    as (w2 & -> & Hst & _).
  eexists. split; [reflexivity|].
  assert (Hst' : stored ds (push_task (mkTask ds v (req_source req) (id_ entry)) w2) =
                 stored ds w2) by (apply stored_same_store; repeat split).
  rewrite Hst', Hst. cbn [versions with_versions].
  split; [reflexivity|]. split; [|reflexivity].
  rewrite List.filter_app, filter_other_versions_count. cbn.
  rewrite String.eqb_refl. reflexivity.
Qed.

(** C4. A submission raises the duplicate-version error (HTTP 400) exactly
    when the manifest read holds an entry of the same label and [upsert] is
    false; it then leaves the storage and the queue of background tasks as
    they were. *)
Theorem duplicate_error_iff req w v w1 :
  effective_version req w = (Return v, w1) ->
  let ds := req_dataset_id req in
  ((ingest_version req w).1 = Raise DuplicateVersionError <->
   (exists e, In e (versions (stored ds w)) /\ version e = v) /\ req_upsert req = false) /\
  ((ingest_version req w).1 = Raise DuplicateVersionError ->
   let w' := (ingest_version req w).2 in
   same_store w w' /\ (forall ds', stored ds' w' = stored ds' w) /\
   background_tasks w' = background_tasks w).
Proof.
  intros E ds. rewrite (ingest_version_unfold _ _ _ _ E). fold ds.
  pose proof (effective_version_spec _ _ _ _ E) as [Hs Ht].
  rewrite <- has_version_In.
  destruct (has_version v (stored ds w)) eqn:Hh; destruct (req_upsert req) eqn:Hu; cbn.
  - destruct (put_manifest_cases ds
      (with_versions (stored ds w)
         (List.filter (fun e => negb (String.eqb (version e) v)) (versions (stored ds w)) ++
          [submitted_entry req v w1])) (tick_clock (tick_uuid w1)))
      as [(_ & w2 & -> & _)|(_ & c & s & ->)]; cbn;
      (split; [split; [discriminate|intros [_ ?]; discriminate]|discriminate]).
  - split; [tauto|]. intros _. split; [exact Hs|]. split; [|exact Ht].
    intros ds'. apply stored_same_store. exact Hs.
  - destruct (put_manifest_cases ds
      (with_versions (stored ds w)
         (List.filter (fun e => negb (String.eqb (version e) v)) (versions (stored ds w)) ++
          [submitted_entry req v w1])) (tick_clock (tick_uuid w1)))
      as [(_ & w2 & -> & _)|(_ & c & s & ->)]; cbn;
      (split; [split; [discriminate|intros [? _]; discriminate]|discriminate]).
  - destruct (put_manifest_cases ds
      (with_versions (stored ds w)
         (List.filter (fun e => negb (String.eqb (version e) v)) (versions (stored ds w)) ++
          [submitted_entry req v w1])) (tick_clock (tick_uuid w1)))
      as [(_ & w2 & -> & _)|(_ & c & s & ->)]; cbn;
      (split; [split; [discriminate|intros [? _]; discriminate]|discriminate]).
Qed.

(** ** Reading a manifest that does not exist yet *)

Lemma after_last_slash_app cur a b :
  after_last_slash cur (a +:+ b) = after_last_slash (after_last_slash cur a) b.
Proof.
  revert cur. induction a as [|c a IH]; intros cur; [reflexivity|].
  change (String c a +:+ b) with (String c (a +:+ b)). cbn [after_last_slash].
  destruct (Ascii.eqb c "/"); apply IH.
Qed.

Lemma basename_local_path ds : basename (local_path ds) = "manifest.json".
Proof.
  unfold basename, local_path. rewrite !after_last_slash_app. reflexivity.
Qed.

(** In the bucket, a missing manifest reads as the empty manifest of the
    dataset asked for; so does any failure of the service. *)
Lemma get_manifest_missing_s3 ds w :
  truthy (S3_BUCKET w) = true ->
  s3_objects w !! manifest_key ds = None ->
  get_manifest ds w = (Return (mkManifest ds []), w).
Proof.
  intros Hb Hk. unfold get_manifest, try_except, s3_get_object. rewrite Hb, Hk.
  destruct (s3_error w); reflexivity.
Qed.

(** On the local file system the same read names the dataset after the file:
    [os.path.basename] of [./data/<dataset_id>/manifest.json]. *)
Lemma get_manifest_missing_local ds w :
  truthy (S3_BUCKET w) = false ->
  files w !! local_path ds = None ->
  get_manifest ds w = (Return (mkManifest "manifest.json" []), w).
Proof.
  intros Hb Hk. unfold get_manifest, _get_manifest_local.
  rewrite Hb, Hk, basename_local_path. reflexivity.
Qed.

(** C5 (the code departs from it). With [DATA_BUCKET] unset and no manifest
    stored, [get_manifest "docs"] returns, with an empty list of versions,
    but its [dataset_id] is ["manifest.json"], not ["docs"]. *)
Theorem get_manifest_missing_local_dataset_id :
  get_manifest "docs" Samples.fresh_world =
    (Return (mkManifest "manifest.json" []), Samples.fresh_world) /\
  dataset_id (stored "docs" Samples.fresh_world) <> "docs".
Proof.
  assert (E : get_manifest "docs" Samples.fresh_world =
              (Return (mkManifest "manifest.json" []), Samples.fresh_world))
    by (apply get_manifest_missing_local; reflexivity).
  split; [exact E|]. unfold stored. rewrite E. cbn. discriminate.
Qed.

(** ** Instances *)


Lemma worker_success_sets_four_fields_witness :
  exists w',
    _process_and_update_manifest (H:=Samples.three_chunks)
      "docs" "v1" "sample_docs/a.txt" "uuid-a" Samples.docs_world = (Return tt, w') /\
    dataset_id (stored "docs" w') = dataset_id (stored "docs" Samples.docs_world) /\
    Forall2 (indexed_from "v1" "uuid-a" 3 (index_dir "docs" "v1"))
            (versions (stored "docs" Samples.docs_world)) (versions (stored "docs" w')).
Proof.
  apply (worker_success_sets_four_fields (H:=Samples.three_chunks)
           "docs" "v1" "sample_docs/a.txt" "uuid-a" ["c1"; "c2"; "c3"] Samples.docs_world).
  - split; [reflexivity|]. exists ["doc"], tt. repeat split; reflexivity.
  - reflexivity.
Defined.

Lemma worker_records_failure_witness :
  exists w',
    _process_and_update_manifest (H:=Samples.three_chunks)
      "docs" "v1" "s3://bucket/a.txt" "uuid-a" Samples.docs_world = (Return tt, w') /\
    versions (stored "docs" w') =
      [set_failed Samples.pending_v1 s3_source_message; Samples.pending_v2].
Proof.
  destruct (worker_records_failure (H:=Samples.three_chunks)
              "docs" "v1" "s3://bucket/a.txt" "uuid-a"
              (PyError "RuntimeError" s3_source_message) Samples.docs_world)
    as (w' & Hr & Hv & _).
  - apply raises_s3; reflexivity.
  - reflexivity.
  - reflexivity.
  - exists w'. split; [exact Hr|]. rewrite Hv. reflexivity.
Defined.

(** C2 as stated fails twice. On a file system that refuses writes the
    handler's own [put_manifest] raises, and the [OSError] leaves the worker;
    and an exception without a message is recorded with the empty text. *)
Lemma worker_failure_escapes_or_is_recorded_empty :
  (pipeline_raises (H:=Samples.three_chunks) "s3://bucket/a.txt" (index_dir "docs" "v1")
     (PyError "RuntimeError" s3_source_message) /\
   _process_and_update_manifest (H:=Samples.three_chunks)
     "docs" "v1" "s3://bucket/a.txt" "uuid-a" Samples.readonly_world =
   (Raise (PyError "OSError" "[Errno 13] Permission denied"), Samples.readonly_world)) /\
  (pipeline_raises (H:=Samples.silent_failure) "sample_docs/a.txt" (index_dir "docs" "v1")
     (PyError "AssertionError" "") /\
   versions (stored "docs"
     (_process_and_update_manifest (H:=Samples.silent_failure)
        "docs" "v1" "sample_docs/a.txt" "uuid-a" Samples.docs_world).2) =
   [set_failed Samples.pending_v1 ""; Samples.pending_v2]).
Proof.
  split; split.
  - apply raises_s3; reflexivity.
  - vm_compute. reflexivity.
  - apply raises_load; reflexivity.
  - vm_compute. reflexivity.
Qed.

Lemma upsert_leaves_single_entry_witness :
  exists w',
    ingest_version Samples.upsert_v1 Samples.docs_world =
      (Return (mkResponse "ingest started" "docs" "v1" "uuid-0"), w') /\
    versions (stored "docs" w') =
      [Samples.pending_v2;
       mkEntry "v1" "uuid-0" "2024-01-01T00:00:00" "sample_docs/a2.txt"
               "PENDING" 0 None None None].
Proof.
  destruct (upsert_leaves_single_entry Samples.upsert_v1 Samples.docs_world
              "v1" Samples.docs_world) as (w' & E & Hv & _).
  - reflexivity.
  - reflexivity.
  - exists Samples.pending_v1. split; [left; reflexivity|reflexivity].
  - reflexivity.
  - exists w'. split; [exact E|exact Hv].
Defined.

Lemma duplicate_error_iff_witness :
  (ingest_version Samples.resubmit_v1 Samples.docs_world).1 = Raise DuplicateVersionError /\
  background_tasks (ingest_version Samples.resubmit_v1 Samples.docs_world).2 = [].
Proof.
  destruct (duplicate_error_iff Samples.resubmit_v1 Samples.docs_world
              "v1" Samples.docs_world eq_refl) as [[_ Hdup] Hframe].
  assert (E : (ingest_version Samples.resubmit_v1 Samples.docs_world).1 =
              Raise DuplicateVersionError).
  { apply Hdup. split; [|reflexivity].
    exists Samples.pending_v1. split; [left; reflexivity|reflexivity]. }
  split; [exact E|]. apply (Hframe E).
Defined.

End IngestFacts.

(* ===================================================================== *)
(** * Properties of app/rag_utils.py *)
(* ===================================================================== *)

Module RagFacts.
Import RagUtils RagObs.

(** ** Norms and the normalisation of the rows *)

Lemma sum_sq_cons x v : sum_sq (x :: v) = (x * x + sum_sq v)%R.
Proof. reflexivity. Qed.

Lemma sum_sq_nonneg v : (0 <= sum_sq v)%R.
Proof.
  induction v as [|x v IH]; [cbn; lra|]. rewrite sum_sq_cons.
  pose proof (Rle_0_sqr x) as Hx. unfold Rsqr in Hx. lra.
Qed.

Lemma sum_sq_zero v : sum_sq v = 0%R -> Forall (fun x => x = 0%R) v.
Proof.
  induction v as [|x v IH]; [constructor|]. rewrite sum_sq_cons.
  intros H0; constructor.
  - pose proof (sum_sq_nonneg v) as Hv. pose proof (Rle_0_sqr x) as Hx.
    unfold Rsqr in Hx. assert (Hxx : (x * x = 0)%R) by lra.
    apply Rmult_integral in Hxx. tauto.
  - apply IH. pose proof (sum_sq_nonneg v) as Hv. pose proof (Rle_0_sqr x) as Hx.
    unfold Rsqr in Hx. lra.
Qed.

Lemma norm_nonneg v : (0 <= norm v)%R.
Proof. apply sqrt_pos. Qed.

Lemma norm_zero v : norm v = 0%R -> Forall (fun x => x = 0%R) v.
Proof.
  intros H0. apply sum_sq_zero. apply sqrt_eq_0; [apply sum_sq_nonneg|exact H0].
Qed.

Lemma norm_sqr v : (norm v * norm v = sum_sq v)%R.
Proof. apply sqrt_sqrt, sum_sq_nonneg. Qed.

Lemma sum_sq_scale v n :
  n <> 0%R -> sum_sq (map (fun x => x / n)%R v) = (sum_sq v / (n * n))%R.
Proof.
  intros Hn. induction v as [|x v IH].
  - cbn. unfold Rdiv. rewrite Rmult_0_l. reflexivity.
  - cbn [map]. rewrite !sum_sq_cons, IH. field. exact Hn.
Qed.

Lemma norm_scaled_row v :
  (norm v > 0)%R -> norm (map (fun x => x / norm v)%R v) = 1%R.
Proof.
  intros Hpos. unfold norm at 1. rewrite sum_sq_scale by lra.
  rewrite <- norm_sqr. replace (norm v * norm v / (norm v * norm v))%R with 1%R
    by (field; lra).
  apply sqrt_1.
Qed.

Lemma map_div_one v : map (fun x => x / 1)%R v = v.
Proof.
  induction v as [|x v IH]; cbn; [reflexivity|]. rewrite IH. f_equal. field.
Qed.

Lemma replace_zero_nonzero n : replace_zero n <> 0%R.
Proof. unfold replace_zero. destruct (Req_dec_T n 0); [lra|assumption]. Qed.

Lemma zip_with_map_r {A B C} (f : A -> B -> C) (g : A -> B) l :
  zip_with f l (map g l) = map (fun x => f x (g x)) l.
Proof. induction l as [|x l IH]; cbn; [reflexivity|]. rewrite IH. reflexivity. Qed.

Lemma normalize_rows m :
  rows (normalize m) =
  map (fun r => map (fun x => x / replace_zero (norm r))%R r) (rows m).
Proof.
  unfold normalize, safe_norms. cbn. rewrite map_map.
  apply (zip_with_map_r (fun r n => map (fun x => (x / n)%R) r)
                        (fun r => replace_zero (norm r))).
Qed.

(** C9. After construction, the rows of [normed] are as many as those of
    [embeddings]; no divisor of the normalisation is zero; a row whose norm
    was positive has norm 1 once normalised; and a row whose norm was zero
    is all zero and is stored as it was. *)
Theorem normed_rows_unit_or_zero Metadata (empty_metadata : Metadata) encode texts metas :
  let idx := __init__ Metadata empty_metadata encode texts metas in
  length (rows (normed Metadata idx)) = length (rows (embeddings Metadata idx)) /\
  Forall (fun n => n <> 0%R) (safe_norms (embeddings Metadata idx)) /\
  forall i r r',
    rows (embeddings Metadata idx) !! i = Some r ->
    rows (normed Metadata idx) !! i = Some r' ->
    ((norm r > 0)%R -> norm r' = 1%R) /\
    (norm r = 0%R -> r' = r /\ Forall (fun x => x = 0%R) r).
Proof.
  cbv zeta. unfold __init__. cbn [normed embeddings].
  set (m := _embed_texts encode texts). rewrite normalize_rows.
  split; [apply length_map|]. split.
  - unfold safe_norms. rewrite map_map. apply List.Forall_forall. intros n Hn.
    apply in_map_iff in Hn as (r & <- & _). apply replace_zero_nonzero.
  - intros i r r' Hr Hr'. rewrite list_lookup_fmap, Hr in Hr'. cbn in Hr'.
    injection Hr' as <-. unfold replace_zero.
    destruct (Req_dec_T (norm r) 0) as [E|E]; split.
    + intros Hpos. lra.
    + intros _. split; [apply map_div_one|apply norm_zero; exact E].
    + intros Hpos. apply norm_scaled_row. exact Hpos.
    + intros E0. contradiction.
Qed.

(** ** Sorts that meet the contract of [argsort] *)

Section Insertion.

Variable before : R -> R -> bool.
Hypothesis before_true : forall x y, before x y = true -> (x <= y)%R.
Hypothesis before_false : forall x y, before x y = false -> (y <= x)%R.
Variable a : list R.

Let ascending (i j : nat) : Prop := (nth i a 0 <= nth j a 0)%R.

Lemma insert_index_perm i l : Permutation (insert_index before a i l) (i :: l).
Proof.
  induction l as [|j l IH]; cbn; [reflexivity|].
  destruct (before (nth i a 0%R) (nth j a 0%R)); [reflexivity|].
  rewrite IH. apply perm_swap.
Qed.

Lemma insert_index_sorted i l :
  StronglySorted ascending l -> StronglySorted ascending (insert_index before a i l).
Proof.
  induction 1 as [|j l Hs IH Hj]; cbn.
  - constructor; constructor.
  - destruct (before (nth i a 0%R) (nth j a 0%R)) eqn:E.
    + apply before_true in E. constructor; [constructor; assumption|].
      constructor; [exact E|].
      eapply List.Forall_impl; [|exact Hj]. unfold ascending in *. intros k Hk. lra.
    + apply before_false in E. constructor; [exact IH|].
      eapply Permutation_Forall; [symmetry; apply insert_index_perm|].
      constructor; assumption.
Qed.

Lemma fold_insert_perm xs acc :
  Permutation (fold_left (fun acc i => insert_index before a i acc) xs acc) (xs ++ acc).
Proof.
  revert acc. induction xs as [|x xs IH]; intros acc; cbn; [reflexivity|].
  rewrite IH, insert_index_perm. symmetry. apply Permutation_middle.
Qed.

Lemma fold_insert_sorted xs acc :
  StronglySorted ascending acc ->
  StronglySorted ascending (fold_left (fun acc i => insert_index before a i acc) xs acc).
Proof.
  revert acc. induction xs as [|x xs IH]; intros acc Hacc; cbn; [exact Hacc|].
  apply IH, insert_index_sorted, Hacc.
Qed.

End Insertion.

Lemma insertion_argsort_contract before :
  (forall x y, before x y = true -> (x <= y)%R) ->
  (forall x y, before x y = false -> (y <= x)%R) ->
  argsort_contract (insertion_argsort before).
Proof.
  intros Ht Hf a. unfold insertion_argsort. split.
  - rewrite fold_insert_perm, app_nil_r. reflexivity.
  - apply fold_insert_sorted; [assumption|assumption|constructor].
Qed.

Lemma argsort_stable_contract : argsort_contract argsort_stable.
Proof.
  apply insertion_argsort_contract; intros x y; unfold Rltb;
    destruct (Rlt_dec x y); intros; try discriminate; lra.
Qed.

Lemma constant_encoder_contract : encoder_contract constant_encoder 1.
Proof.
  intros ts. exists (map (fun _ => [1%R]) ts). split; [reflexivity|].
  split; [apply length_map|]. apply List.Forall_forall. intros r Hr.
  apply in_map_iff in Hr as (_ & <- & _). reflexivity.
Qed.

(** ** Slices and sorted lists *)

Lemma firstn_In {A} n (l : list A) x : In x (firstn n l) -> In x l.
Proof.
  revert l. induction n as [|n IH]; intros [|y l]; cbn; try tauto.
  intros [->|Hx]; [left; reflexivity|right; apply IH, Hx].
Qed.

Lemma StronglySorted_firstn {A} (Rel : A -> A -> Prop) n l :
  StronglySorted Rel l -> StronglySorted Rel (firstn n l).
Proof.
  intros Hs. revert n. induction Hs as [|x l Hs IH Hx]; intros [|n]; cbn;
    try constructor.
  - apply IH.
  - apply List.Forall_forall. intros y Hy. apply firstn_In in Hy.
    revert y Hy. apply List.Forall_forall. exact Hx.
Qed.

Lemma StronglySorted_slice_to {A} (Rel : A -> A -> Prop) k l :
  StronglySorted Rel l -> StronglySorted Rel (slice_to k l).
Proof. unfold slice_to. destruct (0 <=? k)%Z; apply StronglySorted_firstn. Qed.

Lemma StronglySorted_map {A B} (Rel : B -> B -> Prop) (g : A -> B) l :
  StronglySorted (fun x y => Rel (g x) (g y)) l -> StronglySorted Rel (map g l).
Proof.
  induction 1 as [|x l Hs IH Hx]; cbn; constructor; [exact IH|].
  apply List.Forall_forall. intros y Hy. apply in_map_iff in Hy as (z & <- & Hz).
  revert z Hz. apply List.Forall_forall. exact Hx.
Qed.

Lemma slice_to_In {A} k (l : list A) x : In x (slice_to k l) -> In x l.
Proof. unfold slice_to. destruct (0 <=? k)%Z; apply firstn_In. Qed.

Lemma slice_to_length {A} k (l : list A) :
  (1 <= k)%Z -> length (slice_to k l) = Nat.min (Z.to_nat k) (length l).
Proof.
  intros Hk. unfold slice_to.
  destruct (Z.leb_spec 0 k) as [_|Hneg]; [apply length_firstn|lia].
Qed.

Lemma collect_map {A B} (f : A -> option B) (g : A -> B) l :
  (forall x, In x l -> f x = Some (g x)) -> collect f l = Some (map g l).
Proof.
  induction l as [|x l IH]; intros Hf; cbn; [reflexivity|].
  rewrite (Hf x) by (left; reflexivity).
  rewrite IH by (intros y Hy; apply Hf; right; exact Hy). reflexivity.
Qed.

Lemma StronglySorted_impl {A} (R1 R2 : A -> A -> Prop) l :
  (forall x y, R1 x y -> R2 x y) -> StronglySorted R1 l -> StronglySorted R2 l.
Proof.
  intros Himp. induction 1 as [|x l Hs IH Hx]; constructor; [exact IH|].
  eapply List.Forall_impl; [|exact Hx]. intros y. apply Himp.
Qed.

Lemma nth_map_opp i l : nth i (map Ropp l) 0%R = (- nth i l 0)%R.
Proof.
  revert i. induction l as [|x l IH]; intros [|i]; cbn; try apply IH;
    try reflexivity; symmetry; apply Ropp_0.
Qed.

(** ** The shape of [sims] *)

(** One query row of the dimension of the index: [sims] is the vector of the
    scores of the rows of the index. *)
Lemma similarities_one_row {Metadata} (idx : SimpleInMemoryIndex Metadata) q_emb q :
  ncols (normed Metadata idx) = ncols q_emb ->
  rows q_emb = [q] ->
  similarities Metadata idx q_emb =
    Some (map (fun r => dot r (normalize_query q)) (rows (normed Metadata idx))).
Proof.
  intros Hc Hq. unfold similarities, squeezed_product.
  rewrite Hc, Nat.eqb_refl, Hq. reflexivity.
Qed.

(** On a 1-D [sims], [query] is its loop over the selected indices. *)
Lemma query_of_similarities {Metadata} encode argsort
    (idx : SimpleInMemoryIndex Metadata) qtext top_k sims :
  similarities Metadata idx (_embed_texts encode [qtext]) = Some sims ->
  query Metadata encode argsort idx qtext top_k =
    collect (result_at Metadata idx sims) (top_indices argsort sims top_k).
Proof.
  unfold query, similarities.
  destruct (squeezed_product Metadata idx (_embed_texts encode [qtext])) as [[v|g]|];
    intros E; try discriminate E.
  injection E as ->. reflexivity.
Qed.

(** ** Queries against a built index *)

Section Query.

Context {Metadata : Type} (empty_metadata : Metadata).
Variable encode : list string -> ndarray.
Variable argsort : list R -> list nat.
Variable d : nat.
Hypothesis encode_ok : encoder_contract encode d.
Hypothesis argsort_ok : argsort_contract argsort.

Lemma embed_texts_shape ts :
  exists rs, _embed_texts encode ts = Matrix d rs /\ length rs = length ts.
Proof.
  destruct (encode_ok ts) as (rs & E & Hlen & _). exists rs.
  unfold _embed_texts. rewrite E. auto.
Qed.

Lemma built_index_shape chunks pd :
  let idx := create_or_load_index Metadata empty_metadata encode chunks pd in
  texts Metadata idx = map (page_content Metadata) chunks /\
  length (metadatas Metadata idx) = length chunks /\
  ncols (normed Metadata idx) = d /\
  length (rows (normed Metadata idx)) = length chunks.
Proof.
  cbv zeta. unfold create_or_load_index, __init__. cbn [texts metadatas normed].
  destruct (embed_texts_shape (map (page_content Metadata) chunks)) as (rs & -> & Hlen).
  rewrite normalize_rows. cbn [ncols rows normalize]. rewrite !length_map in *.
  repeat split; [|exact Hlen].
  destruct chunks; cbn; [reflexivity|]. rewrite length_map. reflexivity.
Qed.

(** The scores of a query, and its result: one entry per index that
    [argsort] and the slice select, in that order. *)
Lemma query_eval chunks pd qtext top_k :
  let idx := create_or_load_index Metadata empty_metadata encode chunks pd in
  exists sims,
    similarities Metadata idx (_embed_texts encode [qtext]) = Some sims /\
    length sims = length chunks /\
    query Metadata encode argsort idx qtext top_k =
      Some (map (fun i => mkResult (nth i (texts Metadata idx) "")
                                   (nth i sims 0%R)
                                   (nth i (metadatas Metadata idx) empty_metadata))
                (top_indices argsort sims top_k)).
Proof.
  cbv zeta.
  destruct (built_index_shape chunks pd) as (Ht & Hm & Hc & Hr).
  set (idx := create_or_load_index Metadata empty_metadata encode chunks pd) in *.
  destruct (embed_texts_shape [qtext]) as (qs & Eq & Hq).
  destruct qs as [|q [|q' qs]]; try discriminate Hq.
  assert (Hsims : similarities Metadata idx (_embed_texts encode [qtext]) =
                  Some (map (fun r => dot r (normalize_query q))
                            (rows (normed Metadata idx)))).
  { apply similarities_one_row; rewrite Eq; [exact Hc|reflexivity]. }
  eexists. split; [exact Hsims|]. split; [rewrite length_map; exact Hr|].
  rewrite (query_of_similarities _ _ _ _ _ _ Hsims).
  set (sims := map (fun r => dot r (normalize_query q)) (rows (normed Metadata idx))).
  assert (Hlen : length sims = length chunks) by (unfold sims; rewrite length_map; exact Hr).
  apply collect_map. intros i Hi.
  assert (Hlt : i < length chunks).
  { apply slice_to_In in Hi. destruct (argsort_ok (map Ropp sims)) as [Hp _].
    apply (Permutation_in _ Hp) in Hi. apply in_seq in Hi.
    rewrite length_map, Hlen in Hi. lia. }
  unfold result_at.
  rewrite (nth_error_nth' (texts Metadata idx) "") by (rewrite Ht, length_map; exact Hlt).
  rewrite (nth_error_nth' sims 0%R) by (rewrite Hlen; exact Hlt).
  rewrite (nth_error_nth' (metadatas Metadata idx) empty_metadata)
    by (rewrite Hm; exact Hlt).
  reflexivity.
Qed.

(** C1, as amended. For every built index and every query, [query] returns,
    and its results are in descending order of score. (How equal scores are
    ordered is left to [argsort].) *)
Theorem query_sorted_by_score chunks pd qtext top_k :
  exists rs,
    query Metadata encode argsort
      (create_or_load_index Metadata empty_metadata encode chunks pd) qtext top_k
    = Some rs /\
    by_score_desc rs.
Proof.
  destruct (query_eval chunks pd qtext top_k) as (sims & _ & _ & E).
  eexists. split; [exact E|]. unfold by_score_desc.
  apply StronglySorted_map. cbn [score]. unfold top_indices.
  apply StronglySorted_slice_to.
  destruct (argsort_ok (map Ropp sims)) as [_ Hs].
  eapply StronglySorted_impl; [|exact Hs].
  intros i j. cbn beta. rewrite !nth_map_opp. lra.
Qed.

(** C7. For an index built from [n] chunks and every [top_k >= 1], [query]
    returns exactly [min(top_k, n)] results. *)
Theorem query_length chunks pd qtext top_k :
  (1 <= top_k)%Z ->
  exists rs,
    query Metadata encode argsort
      (create_or_load_index Metadata empty_metadata encode chunks pd) qtext top_k
    = Some rs /\
    length rs = Nat.min (Z.to_nat top_k) (length chunks).
Proof.
  intros Hk. destruct (query_eval chunks pd qtext top_k) as (sims & _ & Hlen & E).
  eexists. split; [exact E|]. rewrite length_map. unfold top_indices.
  rewrite slice_to_length by exact Hk.
  destruct (argsort_ok (map Ropp sims)) as [Hp _].
  rewrite (Permutation_length Hp), length_seq, length_map, Hlen. reflexivity.
Qed.

End Query.

(** C8. An index built from zero chunks, by an encoder that answers the empty
    batch with an array of shape [(0, d)], gives the empty list for every
    query and every [top_k >= 1]. *)
Theorem query_empty_index Metadata (empty_metadata : Metadata) encode argsort
    d q pd qtext top_k :
  encode [] = Array2 d [] ->
  encode [qtext] = Array2 d [q] ->
  argsort_contract argsort ->
  (1 <= top_k)%Z ->
  query Metadata encode argsort
    (create_or_load_index Metadata empty_metadata encode [] pd) qtext top_k = Some [].
Proof.
  intros E0 Eq Hsort _.
  unfold query, squeezed_product, create_or_load_index, __init__, _embed_texts.
  cbn [map normed]. rewrite E0, Eq. cbn [ncols rows normalize]. rewrite Nat.eqb_refl.
  cbn [negb zip_with map safe_norms]. unfold top_indices. cbn [map].
  destruct (Hsort []) as [Hp _]. cbn in Hp. symmetry in Hp.
  apply Permutation_nil in Hp. rewrite Hp.
  unfold slice_to. destruct (0 <=? top_k)%Z; rewrite firstn_nil; reflexivity.
Qed.

(** A query batch of no row. Against an index of no row, [sims] has the
    shape [(0, 0)] and the loop has nothing to go through; against an index
    of one row, [sims] is the empty vector; in both cases [query] answers
    [[]]. Against an index of two rows [sims] has the shape [(2, 0)], and
    the loop raises on the first row that the slice keeps. *)
Lemma query_zero_row_batch :
  query unit rowless_query_encoder argsort_stable
    (create_or_load_index unit tt rowless_query_encoder [] None) "q" 3 = Some [] /\
  query unit rowless_query_encoder argsort_stable
    (mkIndex unit ["a"] [tt] (Matrix 1 [[1%R]]) (Matrix 1 [[1%R]])) "q" 3 = Some [] /\
  query unit rowless_query_encoder argsort_stable
    (create_or_load_index unit tt rowless_query_encoder [chunk_a; chunk_b] None) "q" 3
    = None /\
  query unit rowless_query_encoder argsort_stable
    (create_or_load_index unit tt rowless_query_encoder [chunk_a; chunk_b] None) "q" 0
    = Some [].
Proof. repeat split; reflexivity. Qed.

(** When the encoder answers the empty batch with a 1-D empty array instead,
    [_embed_texts] makes it one row of no column, and the product with a
    query of another dimension raises. *)
Lemma query_empty_index_flat_batch :
  query unit flat_empty_encoder argsort_stable
    (create_or_load_index unit tt flat_empty_encoder [] None) "q" 3 = None.
Proof. reflexivity. Qed.

(** ** What a stable sort would give *)

Section StableInsertion.

Variable a : list R.

Let lex (i j : nat) : Prop :=
  (nth i a 0 < nth j a 0)%R \/ ((nth i a 0 = nth j a 0)%R /\ i < j).

Lemma insert_stable_sorted i l :
  Forall (fun j => j < i) l ->
  StronglySorted lex l ->
  StronglySorted lex (insert_index Rltb a i l).
Proof.
  intros Hlt Hs. induction Hs as [|j l Hs IH Hj]; cbn.
  - constructor; constructor.
  - apply Forall_inv_tail in Hlt as Hlt'. apply Forall_inv in Hlt.
    unfold Rltb. destruct (Rlt_dec (nth i a 0%R) (nth j a 0%R)) as [Hij|Hij].
    + constructor; [constructor; assumption|].
      constructor; [left; exact Hij|].
      eapply List.Forall_impl; [|exact Hj]. unfold lex. intros k Hk. left.
      destruct Hk as [Hk|[Hk _]]; lra.
    + constructor; [apply IH; exact Hlt'|].
      eapply Permutation_Forall; [symmetry; apply insert_index_perm|].
      constructor; [|exact Hj]. unfold lex.
      destruct (Rlt_dec (nth j a 0%R) (nth i a 0%R)); [left; assumption|].
      right. split; [lra|exact Hlt].
Qed.

Lemma fold_insert_stable n xs acc :
  xs = seq n (length xs) ->
  Forall (fun j => j < n) acc ->
  StronglySorted lex acc ->
  StronglySorted lex (fold_left (fun acc i => insert_index Rltb a i acc) xs acc).
Proof.
  revert n acc. induction xs as [|x xs IH]; intros n acc Hxs Hlt Hs; cbn; [exact Hs|].
  cbn in Hxs. injection Hxs as -> Hxs. apply (IH (S n)); [exact Hxs| |].
  - eapply Permutation_Forall; [symmetry; apply insert_index_perm|].
    constructor; [lia|]. eapply List.Forall_impl; [|exact Hlt].
    intros k Hk. cbn beta in *. lia.
  - apply insert_stable_sorted; assumption.
Qed.

End StableInsertion.

Lemma argsort_stable_is_stable : stable_argsort_contract argsort_stable.
Proof.
  intros a. split; [apply argsort_stable_contract|].
  unfold argsort_stable, insertion_argsort.
  apply (fold_insert_stable a 0); [rewrite length_seq; reflexivity|constructor|constructor].
Qed.

(** With a stable [argsort] the ranking is the one the specification
    describes: descending scores, equal scores by ascending index. *)
Lemma top_indices_stable argsort sims top_k :
  stable_argsort_contract argsort ->
  ranked_ties_by_index sims (top_indices argsort sims top_k).
Proof.
  intros Hst. unfold ranked_ties_by_index, top_indices.
  apply StronglySorted_slice_to. destruct (Hst (map Ropp sims)) as [_ Hs].
  eapply StronglySorted_impl; [|exact Hs].
  intros i j. cbn beta. rewrite !nth_map_opp. intros [H|[H Hij]]; [left; lra|right].
  split; [lra|exact Hij].
Qed.


(** ** Instances *)

Lemma Rltb_irrefl x : Rltb x x = false.
Proof. unfold Rltb. destruct (Rlt_dec x x); [lra|reflexivity]. Qed.

(** No key is less than another when all the keys are one number. *)
Lemma double_less_equal_keys x n :
  double_less (repeat x n) = fun _ _ => false.
Proof.
  extensionality i. extensionality j. unfold double_less.
  destruct (nth_error (repeat x n) i) as [a|] eqn:Ea; [|reflexivity].
  destruct (nth_error (repeat x n) j) as [b|] eqn:Eb; [|reflexivity].
  apply nth_error_In, repeat_spec in Ea. apply nth_error_In, repeat_spec in Eb.
  subst. apply Rltb_irrefl.
Qed.

(** The quicksort on eighteen equal keys: the pivot goes from the middle to
    position 16, the scans from both ends stop at every element and swap
    the positions 1..7 with 15..9, and the two parts left, of 8 and 9
    elements, go to the insertion sort, which moves nothing. *)
Lemma argsort_quicksort_equal_keys x :
  argsort_quicksort (repeat x 18) =
    [0; 15; 14; 13; 12; 11; 10; 9; 8; 7; 6; 5; 4; 3; 2; 1; 16; 17].
Proof.
  unfold argsort_quicksort. rewrite double_less_equal_keys, repeat_length.
  vm_compute. reflexivity.
Qed.

Lemma same_text_scores :
  exists s,
    similarities nat
      (create_or_load_index nat 0 constant_encoder same_text_chunks None)
      (_embed_texts constant_encoder ["q"]) = Some (repeat s 18).
Proof.
  unfold similarities, squeezed_product, create_or_load_index, __init__. cbn [normed].
  rewrite normalize_rows. cbn. eexists. reflexivity.
Qed.

(** C1 as stated fails on ties. Eighteen chunks of the same text, numbered
    0 to 17 in their metadata, have the same embedding and so the same
    score [s] for any query. With numpy's quicksort, the default [kind] of
    [np.argsort], [query] returns them in the order 0, 15, 14, ..., 1, 16,
    17: the chunk inserted as number 15 comes before the chunk inserted as
    number 14, at equal scores. *)
Lemma quicksort_reorders_equal_scores :
  encoder_contract constant_encoder 1 /\
  exists s,
    query nat constant_encoder argsort_quicksort
      (create_or_load_index nat 0 constant_encoder same_text_chunks None) "q" 18
    = Some (map (fun i => mkResult "a" s i)
                [0; 15; 14; 13; 12; 11; 10; 9; 8; 7; 6; 5; 4; 3; 2; 1; 16; 17]) /\
    ~ ranked_ties_by_index (repeat s 18)
        (top_indices argsort_quicksort (repeat s 18) 18).
Proof.
  split; [exact constant_encoder_contract|].
  destruct same_text_scores as (s & Hs). exists s.
  assert (Htop : top_indices argsort_quicksort (repeat s 18) 18 =
                 [0; 15; 14; 13; 12; 11; 10; 9; 8; 7; 6; 5; 4; 3; 2; 1; 16; 17]).
  { unfold top_indices. change (map Ropp (repeat s 18)) with (repeat (- s)%R 18).
    rewrite argsort_quicksort_equal_keys. reflexivity. }
  split.
  - rewrite (query_of_similarities _ _ _ _ _ _ Hs), Htop. reflexivity.
  - rewrite Htop. unfold ranked_ties_by_index. intros Hr.
    apply StronglySorted_inv in Hr as [Hr _].
    apply StronglySorted_inv in Hr as [_ Hr]. apply Forall_inv in Hr.
    cbn in Hr. destruct Hr as [Hgt|[_ Hlt]]; [lra|lia].
Qed.

Lemma query_sorted_by_score_witness :
  exists rs,
    query unit constant_encoder argsort_stable
      (create_or_load_index unit tt constant_encoder [chunk_a; chunk_b] None) "q" 2
    = Some rs /\
    by_score_desc rs.
Proof.
  exact (query_sorted_by_score tt constant_encoder argsort_stable 1
           constant_encoder_contract argsort_stable_contract
           [chunk_a; chunk_b] None "q" 2).
Defined.

Lemma query_length_witness :
  exists rs,
    query unit constant_encoder argsort_stable
      (create_or_load_index unit tt constant_encoder [chunk_a; chunk_b] None) "q" 5
    = Some rs /\
    length rs = 2.
Proof.
  apply (query_length tt constant_encoder argsort_stable 1
           constant_encoder_contract argsort_stable_contract
           [chunk_a; chunk_b] None "q" 5).
  lia.
Defined.

Lemma query_empty_index_witness :
  query unit constant_encoder argsort_stable
    (create_or_load_index unit tt constant_encoder [] None) "q" 3 = Some [].
Proof.
  apply (query_empty_index unit tt constant_encoder argsort_stable 1 [1%R] None "q" 3).
  - reflexivity.
  - reflexivity.
  - exact argsort_stable_contract.
  - lia.
Defined.

Lemma normed_rows_unit_or_zero_witness :
  (forall r',
     rows (normed unit (__init__ unit tt two_row_encoder ["a"; "b"] None)) !! 0 = Some r' ->
     norm r' = 1%R) /\
  (forall r',
     rows (normed unit (__init__ unit tt two_row_encoder ["a"; "b"] None)) !! 1 = Some r' ->
     r' = [0%R; 0%R]).
Proof.
  destruct (normed_rows_unit_or_zero unit tt two_row_encoder ["a"; "b"] None)
    as (_ & _ & H).
  split; intros r' Hr'.
  - apply (H 0 [3%R; 4%R] r' eq_refl Hr'). unfold norm. apply sqrt_lt_R0.
    rewrite !sum_sq_cons. cbn. lra.
  - apply (H 1 [0%R; 0%R] r' eq_refl Hr'). unfold norm. rewrite !sum_sq_cons. cbn.
    replace (0 * 0 + (0 * 0 + 0))%R with 0%R by lra. apply sqrt_0.
Defined.

End RagFacts.

(* ===================================================================== *)
(** * Further properties of app/ingest_api.py *)
(* ===================================================================== *)

Module IngestMore.
Import IngestApi IngestObs IngestFacts.

(** ** Storage *)

(** X1. A manifest that [put_manifest] wrote is the one [get_manifest] reads
    back, on either store. *)
Theorem put_then_get ds m w :
  writable w ->
  exists w', put_manifest ds m w = (Return tt, w') /\
             get_manifest ds w' = (Return m, w').
Proof.
  intros Hw. destruct (put_manifest_ok ds m w Hw) as (w' & E & Hst & _).
  exists w'. split; [exact E|]. rewrite get_manifest_stored, Hst. reflexivity.
Qed.

Lemma put_then_get_witness :
  exists w', put_manifest "docs" (mkManifest "docs" [Samples.pending_v1]) Samples.fresh_world
             = (Return tt, w') /\
             get_manifest "docs" w' = (Return (mkManifest "docs" [Samples.pending_v1]), w').
Proof.
  apply (put_then_get "docs" (mkManifest "docs" [Samples.pending_v1]) Samples.fresh_world).
  reflexivity.
Defined.

Lemma string_length_app (s t : string) :
  String.length (s +:+ t) = String.length s + String.length t.
Proof. induction s as [|c s IH]; simpl; [reflexivity|]. f_equal. exact IH. Qed.

Lemma string_app_inv_tail (s1 s2 t : string) : s1 +:+ t = s2 +:+ t -> s1 = s2.
Proof.
  revert s2. induction s1 as [|c s1 IH]; intros [|c2 s2] H.
  - reflexivity.
  - exfalso. apply (f_equal String.length) in H.
    rewrite !string_length_app in H. simpl in H. lia.
  - exfalso. apply (f_equal String.length) in H.
    rewrite !string_length_app in H. simpl in H. lia.
  - simpl in H. injection H as -> H. f_equal. apply IH, H.
Qed.

Lemma manifest_key_inj ds ds' : manifest_key ds = manifest_key ds' -> ds = ds'.
Proof.
  unfold manifest_key. intros H. apply String.app_inj in H.
  apply string_app_inv_tail in H. exact H.
Qed.

(** X2. In the bucket, writing the manifest of one dataset leaves what
    [get_manifest] answers for every other dataset as it was, whether the
    write succeeds or raises. *)
Theorem s3_put_keeps_other_datasets ds ds' m w :
  truthy (S3_BUCKET w) = true ->
  ds' <> ds ->
  stored ds' (put_manifest ds m w).2 = stored ds' w.
Proof.
  intros Hb Hne. unfold put_manifest, s3_put_object. rewrite Hb.
  destruct (s3_error w) as [msg|] eqn:He; [reflexivity|]. cbn [snd].
  unfold stored, get_manifest, try_except, s3_get_object. cbn. rewrite Hb, He.
  rewrite lookup_insert_ne
    by (intros Hk; apply manifest_key_inj in Hk; congruence).
  destruct (s3_objects w !! manifest_key ds'); reflexivity.
Qed.

(** X3. In the bucket, [get_manifest] swallows every error of the service:
    while it fails, or when the key is absent, the answer is the empty
    manifest of the dataset asked for, stored manifest or not. *)
Theorem s3_read_failure_reads_empty ds w :
  truthy (S3_BUCKET w) = true ->
  (s3_error w <> None \/ s3_objects w !! manifest_key ds = None) ->
  get_manifest ds w = (Return (mkManifest ds []), w).
Proof.
  intros Hb Hc. unfold get_manifest, try_except, s3_get_object. rewrite Hb.
  destruct (s3_error w) as [msg|]; [reflexivity|].
  destruct Hc as [Hc|Hc]; [congruence|]. rewrite Hc. reflexivity.
Qed.

Lemma s3_read_failure_reads_empty_witness :
  get_manifest "docs" Samples.bucket_down_world =
    (Return (mkManifest "docs" []), Samples.bucket_down_world).
Proof.
  apply (s3_read_failure_reads_empty "docs" Samples.bucket_down_world).
  - reflexivity.
  - left. discriminate.
Defined.

(** ** Submissions *)

Lemma ingest_version_return req w resp w' :
  ingest_version req w = (Return resp, w') ->
  exists v w1,
    effective_version req w = (Return v, w1) /\
    (has_version v (stored (req_dataset_id req) w) = false \/ req_upsert req = true) /\
    resp = mkResponse "ingest started" (req_dataset_id req) v
             (id_ (submitted_entry req v w1)) /\
    stored (req_dataset_id req) w' =
      with_versions (stored (req_dataset_id req) w)
        (List.filter (fun e => negb (String.eqb (version e) v))
                     (versions (stored (req_dataset_id req) w))
         ++ [submitted_entry req v w1])%list /\
    background_tasks w' =
      (background_tasks w ++
       [mkTask (req_dataset_id req) v (req_source req) (id_ (submitted_entry req v w1))])%list /\
    writable w'.
Proof.
  destruct (effective_version_returns req w) as (v & w1 & E).
  rewrite (ingest_version_unfold _ _ _ _ E).
  pose proof (effective_version_spec _ _ _ _ E) as [Hs Ht].
  destruct (has_version v (stored (req_dataset_id req) w)) eqn:Hh;
    destruct (req_upsert req) eqn:Hu; cbn [andb negb]; try discriminate;
    cbv zeta;
    (destruct (put_manifest_cases (req_dataset_id req)
      (with_versions (stored (req_dataset_id req) w)
         (List.filter (fun e => negb (String.eqb (version e) v))
            (versions (stored (req_dataset_id req) w)) ++ [submitted_entry req v w1]))
      (tick_clock (tick_uuid w1)))
      as [(_ & w2 & -> & Hst & Htk & Hw2)|(_ & c & s & ->)]; [|discriminate]);
    intros [= <- <-]; exists v, w1; (split; [exact E|]);
    (split; [auto|]); (split; [reflexivity|]);
    (split; [rewrite <- Hst; apply stored_same_store; repeat split|]);
    (split; [cbn; rewrite Htk; cbn; rewrite Ht; reflexivity|]);
    (eapply writable_same_store; [|exact Hw2]); repeat split.
Qed.

Lemma ingest_version_raise req w e w' :
  ingest_version req w = (Raise e, w') ->
  same_store w w' /\ background_tasks w' = background_tasks w /\
  (e = DuplicateVersionError \/ (~ writable w /\ exists c s, e = PyError c s)).
Proof.
  destruct (effective_version_returns req w) as (v & w1 & E).
  rewrite (ingest_version_unfold _ _ _ _ E).
  pose proof (effective_version_spec _ _ _ _ E) as [Hs Ht].
  assert (Hs2 : same_store w (tick_clock (tick_uuid w1))).
  { destruct Hs as (?&?&?&?&?); repeat split; auto. }
  destruct (has_version v (stored (req_dataset_id req) w) && negb (req_upsert req)).
  - intros [= <- <-]. auto.
  - cbv zeta.
    destruct (put_manifest_cases (req_dataset_id req)
      (with_versions (stored (req_dataset_id req) w)
         (List.filter (fun e => negb (String.eqb (version e) v))
            (versions (stored (req_dataset_id req) w)) ++ [submitted_entry req v w1]))
      (tick_clock (tick_uuid w1)))
      as [(_ & w2 & -> & _)|(Hn & c & s & ->)]; [discriminate|].
    intros [= <- <-]. split; [exact Hs2|]. split; [exact Ht|]. right. split; [|eauto].
    intros Hw. apply Hn. eapply writable_same_store; eassumption.
Qed.



Lemma filter_other_versions_id v (vs : list ManifestEntry) :
  (forall e, In e vs -> version e <> v) ->
  List.filter (fun e => negb (String.eqb (version e) v)) vs = vs.
Proof.
  induction vs as [|e vs IH]; intros Hno; cbn; [reflexivity|].
  destruct (String.eqb_spec (version e) v) as [Heq|_]; cbn.
  - exfalso. apply (Hno e); [left; reflexivity|exact Heq].
  - rewrite IH by (intros x Hx; apply Hno; right; exact Hx). reflexivity.
Qed.

(** X5. A submission under a label that the manifest does not have yet
    appends its [PENDING] entry and keeps every earlier entry, in order. *)
Theorem new_label_is_appended req w v w1 :
  effective_version req w = (Return v, w1) ->
  (forall e, In e (versions (stored (req_dataset_id req) w)) -> version e <> v) ->
  writable w ->
  exists resp w',
    ingest_version req w = (Return resp, w') /\
    versions (stored (req_dataset_id req) w') =
      (versions (stored (req_dataset_id req) w) ++ [submitted_entry req v w1])%list /\
    dataset_id (stored (req_dataset_id req) w') =
      dataset_id (stored (req_dataset_id req) w).
Proof.
  intros E Hno Hw.
  destruct (ingest_version req w) as [[resp|e] w'] eqn:Ei.
  - destruct (ingest_version_return _ _ _ _ Ei) as (v' & w1' & E' & _ & _ & Hst & _).
    rewrite E in E'. injection E' as <- <-.
    exists resp, w'. split; [reflexivity|]. rewrite Hst. cbn.
    rewrite filter_other_versions_id by exact Hno. auto.
  - exfalso. destruct (ingest_version_raise _ _ _ _ Ei) as (_ & _ & [->|[Hn _]]);
      [|contradiction].
    rewrite (ingest_version_unfold _ _ _ _ E) in Ei.
    assert (Hh : has_version v (stored (req_dataset_id req) w) = false).
    { destruct (has_version v (stored (req_dataset_id req) w)) eqn:Hh; [|reflexivity].
      apply has_version_In in Hh as (x & Hx & Hv). exfalso. exact (Hno x Hx Hv). }
    rewrite Hh in Ei. cbn [andb] in Ei. cbv zeta in Ei. revert Ei.
    destruct (put_manifest_cases (req_dataset_id req)
      (with_versions (stored (req_dataset_id req) w)
         (List.filter (fun e => negb (String.eqb (version e) v))
            (versions (stored (req_dataset_id req) w)) ++ [submitted_entry req v w1]))
      (tick_clock (tick_uuid w1)))
      as [(_ & w2 & -> & _)|(_ & c & s & ->)]; discriminate.
Qed.

Lemma new_label_is_appended_witness :
  exists resp w',
    ingest_version Samples.submit_v3 Samples.docs_world = (Return resp, w') /\
    versions (stored "docs" w') =
      [Samples.pending_v1; Samples.pending_v2;
       mkEntry "v3" "uuid-0" "2024-01-01T00:00:00" "sample_docs/c.txt"
               "PENDING" 0 None None None] /\
    dataset_id (stored "docs" w') = "docs".
Proof.
  apply (new_label_is_appended Samples.submit_v3 Samples.docs_world "v3" Samples.docs_world).
  - reflexivity.
  - intros e [<-|[<-|[]]]; discriminate.
  - reflexivity.
Defined.

(** X6. A submission that returns has queued exactly one background task,
    after those already queued; the task carries the dataset, the label and
    the source of the request and the id of the entry now last in the stored
    manifest, which is the [task_id] of the response. *)
Theorem submission_queues_its_entry req w resp w' :
  ingest_version req w = (Return resp, w') ->
  exists entry,
    last (versions (stored (req_dataset_id req) w')) = Some entry /\
    status entry = "PENDING" /\ source entry = req_source req /\
    version entry = resp_version resp /\ id_ entry = resp_task_id resp /\
    background_tasks w' =
      (background_tasks w ++
       [mkTask (req_dataset_id req) (resp_version resp) (req_source req)
               (resp_task_id resp)])%list.
Proof.
  intros E. destruct (ingest_version_return _ _ _ _ E) as (v & w1 & _ & _ & -> & Hst & Ht & _).
  exists (submitted_entry req v w1). rewrite Hst. cbn [versions with_versions].
  rewrite last_snoc. cbn. auto 10.
Qed.

Lemma submission_queues_its_entry_witness :
  exists resp w' entry,
    ingest_version Samples.submit_v3 Samples.docs_world = (Return resp, w') /\
    last (versions (stored "docs" w')) = Some entry /\
    id_ entry = resp_task_id resp /\
    background_tasks w' = [mkTask "docs" (resp_version resp) "sample_docs/c.txt"
                                  (resp_task_id resp)].
Proof.
  destruct (ingest_version Samples.submit_v3 Samples.docs_world) as [r w'] eqn:E.
  assert (Er : exists resp, r = Return resp).
  { vm_compute in E. inversion E. eauto. }
  destruct Er as (resp & ->).
  destruct (submission_queues_its_entry _ _ _ _ E) as (entry & Hl & _ & _ & _ & Hid & Ht).
  exists resp, w', entry. auto.
Defined.

(** X7. On the local file system, the first manifest stored for a dataset
    does not carry the dataset's id: [get_manifest] made it up from the file
    name, and the submission writes it back with its one entry. *)
Theorem first_local_manifest_is_named_after_file req w resp w' :
  truthy (S3_BUCKET w) = false ->
  files w !! local_path (req_dataset_id req) = None ->
  ingest_version req w = (Return resp, w') ->
  dataset_id (stored (req_dataset_id req) w') = "manifest.json" /\
  exists entry,
    versions (stored (req_dataset_id req) w') = [entry] /\
    id_ entry = resp_task_id resp.
Proof.
  intros Hb Hk E.
  destruct (ingest_version_return _ _ _ _ E) as (v & w1 & _ & _ & -> & Hst & _).
  assert (H0 : stored (req_dataset_id req) w = mkManifest "manifest.json" []).
  { unfold stored. rewrite (get_manifest_missing_local _ _ Hb Hk). reflexivity. }
  rewrite Hst, H0. cbn. eauto.
Qed.

Lemma first_local_manifest_is_named_after_file_witness :
  exists resp w',
    ingest_version Samples.submit_v3 Samples.fresh_world = (Return resp, w') /\
    dataset_id (stored "docs" w') = "manifest.json".
Proof.
  destruct (ingest_version Samples.submit_v3 Samples.fresh_world) as [r w'] eqn:E.
  assert (Er : exists resp, r = Return resp).
  { vm_compute in E. inversion E. eauto. }
  destruct Er as (resp & ->). exists resp, w'. split; [reflexivity|].
  apply (first_local_manifest_is_named_after_file Samples.submit_v3
           Samples.fresh_world resp w'); [reflexivity|reflexivity|exact E].
Defined.

Lemma labels_after_filter v entry (vs : list ManifestEntry) :
  version entry = v ->
  List.NoDup (map version vs) ->
  List.NoDup (map version
    (List.filter (fun e => negb (String.eqb (version e) v)) vs ++ [entry])%list).
Proof.
  intros Hv Hnd. rewrite map_app. cbn [map].
  assert (Hf : List.NoDup
                 (map version (List.filter (fun e => negb (String.eqb (version e) v)) vs))).
  { induction vs as [|e vs IH]; cbn; [constructor|].
    apply List.NoDup_cons_iff in Hnd as [Hnin Hnd].
    destruct (String.eqb (version e) v); cbn; [apply IH, Hnd|].
    constructor; [|apply IH, Hnd].
    intros Hin. apply Hnin. apply in_map_iff in Hin as (x & Hx & Hin).
    apply List.filter_In in Hin as [Hin _]. apply in_map_iff. eauto. }
  apply List.NoDup_app; [exact Hf|constructor; [intros []|constructor]|].
  intros l Hl Hl'.
  destruct Hl' as [<-|[]]. apply in_map_iff in Hl as (x & Hx & Hin).
  apply List.filter_In in Hin as [_ Hne]. rewrite Hx, Hv, String.eqb_refl in Hne.
  discriminate.
Qed.

(** X8. Submissions keep the labels of a manifest pairwise distinct: if no
    two stored entries share a [version], none do after [ingest_version],
    whatever its outcome. *)
Theorem labels_stay_distinct req w :
  List.NoDup (map version (versions (stored (req_dataset_id req) w))) ->
  List.NoDup (map version
    (versions (stored (req_dataset_id req) (ingest_version req w).2))).
Proof.
  intros Hnd. destruct (ingest_version req w) as [[resp|e] w'] eqn:E; cbn [snd].
  - destruct (ingest_version_return _ _ _ _ E) as (v & w1 & _ & _ & _ & Hst & _).
    rewrite Hst. cbn [versions with_versions].
    apply labels_after_filter; [reflexivity|exact Hnd].
  - destruct (ingest_version_raise _ _ _ _ E) as (Hs & _).
    rewrite (stored_same_store _ _ _ Hs). exact Hnd.
Qed.

Lemma labels_stay_distinct_witness :
  List.NoDup (map version
    (versions (stored "docs" (ingest_version Samples.upsert_v1 Samples.docs_world).2))).
Proof.
  apply (labels_stay_distinct Samples.upsert_v1 Samples.docs_world).
  vm_compute. repeat constructor; cbn; intuition discriminate.
Defined.

(** ** The worker *)


Lemma worker_frame `{Pipeline} ds v src eid w :
  Forall2 (fun e e' => ~ is_target v eid e -> e' = e)
          (versions (stored ds w))
          (versions (stored ds (_process_and_update_manifest ds v src eid w).2)) /\
  dataset_id (stored ds (_process_and_update_manifest ds v src eid w).2) =
  dataset_id (stored ds w).
Proof.
  destruct (worker_run ds v src eid w) as [(_ & _ & Hc)|(_ & _ & Hs)].
  - destruct (prepare src (index_dir ds v)) as [chunks|e].
    + destruct Hc as (vs' & -> & HF). cbn. split; [|reflexivity].
      eapply indexed_from_frame; exact HF.
    + rewrite Hc. cbn. split; [|reflexivity]. apply mark_failed_frame.
  - rewrite (stored_same_store ds _ _ Hs). split; [apply frame_refl|reflexivity].
Qed.






Lemma submitted_entries req w resp w1 :
  ingest_version req w = (Return resp, w1) ->
  exists others entry,
    versions (stored (req_dataset_id req) w1) = (others ++ [entry])%list /\
    others = List.filter (fun e => negb (String.eqb (version e) (resp_version resp)))
                         (versions (stored (req_dataset_id req) w)) /\
    (forall e, In e others -> version e <> resp_version resp) /\
    version entry = resp_version resp /\ id_ entry = resp_task_id resp /\
    source entry = req_source req /\ status entry = "PENDING" /\
    writable w1.
Proof.
  intros E. destruct (ingest_version_return _ _ _ _ E) as (v & w' & _ & _ & -> & Hst & _ & Hw).
  eexists _, (submitted_entry req v w'). rewrite Hst. cbn [versions with_versions].
  split; [reflexivity|]. split; [reflexivity|]. split; [|cbn; auto 10].
  intros e He Hv. apply List.filter_In in He as [_ Hne]. cbn in Hne.
  rewrite Hv, String.eqb_refl in Hne. discriminate.
Qed.

Lemma matches_refl e : matches (version e) (id_ e) e = true.
Proof. unfold matches. rewrite !String.eqb_refl. reflexivity. Qed.

(** X11. Submission and worker together, on success: when the task queued by
    a submission runs and the pipeline returns [chunks], the entry that the
    submission appended becomes [INDEXED] with the number of chunks and the
    index directory [/tmp/indexes/<dataset>/<version>], and the entries
    before it are as the submission left them. *)
Theorem submitted_entry_gets_indexed `{Pipeline} req w resp w1 chunks :
  ingest_version req w = (Return resp, w1) ->
  pipeline_returns (req_source req)
    (index_dir (req_dataset_id req) (resp_version resp)) chunks ->
  let ds := req_dataset_id req in
  exists w2 e',
    _process_and_update_manifest ds (resp_version resp) (req_source req)
      (resp_task_id resp) w1 = (Return tt, w2) /\
    versions (stored ds w2) =
      (List.filter (fun e => negb (String.eqb (version e) (resp_version resp)))
                   (versions (stored ds w)) ++ [e'])%list /\
    version e' = resp_version resp /\ id_ e' = resp_task_id resp /\
    status e' = "INDEXED" /\ chunks_indexed e' = Z.of_nat (length chunks) /\
    index_path e' = Some (index_dir ds (resp_version resp)) /\
    is_Some (indexed_at e').
Proof.
  intros E Hp. cbv zeta. apply prepare_returns in Hp.
  destruct (submitted_entries _ _ _ _ E)
    as (others & entry & Hvs & -> & Hoth & Hv & Hid & _ & _ & Hw).
  set (ds := req_dataset_id req) in *.
  destruct (worker_run ds (resp_version resp) (req_source req) (resp_task_id resp) w1)
    as [(_ & Hr & Hc)|(Hn & _)]; [|contradiction].
  rewrite Hp in Hc. destruct Hc as (vs' & Hst & HF).
  destruct (_process_and_update_manifest ds (resp_version resp) (req_source req)
              (resp_task_id resp) w1) as [r w2].
  cbn [fst snd] in *. subst r. rewrite Hvs in HF.
  apply Forall2_app_inv_l in HF as (o' & l' & Ho & Hl & ->).
  apply Forall2_cons_inv_l in Hl as (e' & l'' & He & Hnil & ->).
  apply Forall2_nil_inv_l in Hnil as ->.
  assert (Ho' : o' = List.filter
                       (fun e => negb (String.eqb (version e) (resp_version resp)))
                       (versions (stored ds w))).
  { apply (frame_no_target (resp_version resp) (resp_task_id resp)).
    - eapply indexed_from_frame, Ho.
    - intros e Hin [Hve _]. exact (Hoth e Hin Hve). }
  exists w2, e'. split; [reflexivity|]. rewrite Hst. cbn [versions with_versions].
  rewrite Ho'. split; [reflexivity|].
  unfold indexed_from in He. rewrite <- Hv, <- Hid, matches_refl in He.
  destruct He as (Hv' & Hi' & _ & _ & _ & Hs' & Hn' & Hp' & Ht').
  rewrite <- Hv, <- Hid. auto 10.
Qed.

Lemma submitted_entry_gets_indexed_witness :
  exists w1 w2,
    ingest_version Samples.submit_v3 Samples.docs_world =
      (Return (mkResponse "ingest started" "docs" "v3" "uuid-0"), w1) /\
    _process_and_update_manifest (H:=Samples.three_chunks)
      "docs" "v3" "sample_docs/c.txt" "uuid-0" w1 = (Return tt, w2) /\
    exists e',
      versions (stored "docs" w2) = [Samples.pending_v1; Samples.pending_v2; e'] /\
      status e' = "INDEXED" /\ chunks_indexed e' = 3%Z.
Proof.
  destruct (ingest_version Samples.submit_v3 Samples.docs_world) as [r w1] eqn:E.
  assert (Er : r = Return (mkResponse "ingest started" "docs" "v3" "uuid-0")).
  { vm_compute in E. congruence. }
  subst r.
  destruct (submitted_entry_gets_indexed (H:=Samples.three_chunks)
              Samples.submit_v3 Samples.docs_world _ w1 ["c1"; "c2"; "c3"] E)
    as (w2 & e' & Hrun & Hvs & _ & _ & Hst & Hn & _).
  - split; [reflexivity|]. exists ["doc"], tt. repeat split; reflexivity.
  - exists w1, w2. split; [reflexivity|]. split; [exact Hrun|].
    exists e'. split; [exact Hvs|]. split; [exact Hst|exact Hn].
Defined.

(** X12. Submission and worker together, on a source that starts with
    [s3://]: whatever the pipeline, the worker returns and the entry that the
    submission appended becomes [FAILED] with the fixed message about S3
    sources as its [error]; the loader is never consulted. *)
Theorem s3_source_is_recorded_failed `{Pipeline} req w resp w1 :
  ingest_version req w = (Return resp, w1) ->
  String.prefix "s3://" (req_source req) = true ->
  let ds := req_dataset_id req in
  exists w2 e',
    _process_and_update_manifest ds (resp_version resp) (req_source req)
      (resp_task_id resp) w1 = (Return tt, w2) /\
    versions (stored ds w2) =
      (List.filter (fun e => negb (String.eqb (version e) (resp_version resp)))
                   (versions (stored ds w)) ++ [e'])%list /\
    version e' = resp_version resp /\ id_ e' = resp_task_id resp /\
    status e' = "FAILED" /\ error e' = Some s3_source_message /\
    chunks_indexed e' = 0%Z /\ index_path e' = None.
Proof.
  intros E Hp. cbv zeta.
  assert (Hprep : prepare (req_source req)
                    (index_dir (req_dataset_id req) (resp_version resp)) =
                  Raise (PyError "RuntimeError" s3_source_message))
    by (unfold prepare; rewrite Hp; reflexivity).
  destruct (ingest_version_return _ _ _ _ E) as (v & w' & _ & _ & -> & Hst0 & _ & Hw).
  set (ds := req_dataset_id req) in *. cbn [resp_version resp_task_id] in *.
  destruct (worker_run ds v (req_source req) (id_ (submitted_entry req v w')) w1)
    as [(_ & Hr & Hc)|(Hn & _)]; [|contradiction].
  rewrite Hprep in Hc.
  destruct (_process_and_update_manifest ds v (req_source req)
              (id_ (submitted_entry req v w')) w1) as [r w2].
  cbn [fst snd] in *. subst r.
  exists w2, (set_failed (submitted_entry req v w') s3_source_message).
  split; [reflexivity|]. rewrite Hc, Hst0. cbn [versions with_versions str].
  split; [|cbn; auto 10].
  unfold mark_failed. rewrite map_app. cbn [map]. f_equal.
  - rewrite <- (map_id (List.filter _ _)) at 2. apply map_ext_in.
    intros e He. apply List.filter_In in He as [_ Hne]. unfold matches.
    destruct (String.eqb (version e) v); [discriminate|reflexivity].
  - change v with (version (submitted_entry req v w')) at 1.
    rewrite matches_refl. reflexivity.
Qed.

Lemma s3_source_is_recorded_failed_witness :
  exists w1 w2 e',
    ingest_version Samples.submit_s3_source Samples.docs_world =
      (Return (mkResponse "ingest started" "docs" "v3" "uuid-0"), w1) /\
    _process_and_update_manifest (H:=Samples.three_chunks)
      "docs" "v3" "s3://bucket/c.txt" "uuid-0" w1 = (Return tt, w2) /\
    versions (stored "docs" w2) = [Samples.pending_v1; Samples.pending_v2; e'] /\
    status e' = "FAILED" /\ error e' = Some s3_source_message.
Proof.
  destruct (ingest_version Samples.submit_s3_source Samples.docs_world) as [r w1] eqn:E.
  assert (Er : r = Return (mkResponse "ingest started" "docs" "v3" "uuid-0")).
  { vm_compute in E. congruence. }
  subst r.
  destruct (s3_source_is_recorded_failed (H:=Samples.three_chunks)
              Samples.submit_s3_source Samples.docs_world _ w1 E eq_refl)
    as (w2 & e' & Hrun & Hvs & _ & _ & Hst & He & _).
  exists w1, w2, e'. auto.
Defined.

(** X13. A worker left over from a superseded submission is harmless: once
    a submission for a label has returned, a worker that runs for that label
    with any other id leaves the stored manifest exactly as the submission
    wrote it, whatever its source and pipeline do. *)
Theorem stale_worker_after_submission `{Pipeline} req w resp w1 src eid :
  ingest_version req w = (Return resp, w1) ->
  eid <> resp_task_id resp ->
  stored (req_dataset_id req)
    (_process_and_update_manifest (req_dataset_id req) (resp_version resp) src eid w1).2
  = stored (req_dataset_id req) w1.
Proof.
  intros E Hne.
  destruct (submitted_entries _ _ _ _ E)
    as (others & entry & Hvs & _ & Hoth & Hv & Hid & _).
  destruct (worker_frame (req_dataset_id req) (resp_version resp) src eid w1) as [HF Hd].
  assert (Hsame : versions (stored (req_dataset_id req)
                    (_process_and_update_manifest (req_dataset_id req)
                       (resp_version resp) src eid w1).2) =
                  versions (stored (req_dataset_id req) w1)).
  { apply (frame_no_target (resp_version resp) eid); [exact HF|].
    rewrite Hvs. intros e He [Hve Hie]. apply in_app_iff in He as [He|[<-|[]]].
    - exact (Hoth e He Hve).
    - congruence. }
  revert Hsame Hd.
  generalize (stored (req_dataset_id req)
                (_process_and_update_manifest (req_dataset_id req)
                   (resp_version resp) src eid w1).2).
  generalize (stored (req_dataset_id req) w1).
  intros [d vs] [d' vs']. cbn. congruence.
Qed.

Lemma stale_worker_after_submission_witness :
  exists w1,
    ingest_version Samples.upsert_v1 Samples.docs_world =
      (Return (mkResponse "ingest started" "docs" "v1" "uuid-0"), w1) /\
    stored "docs"
      (_process_and_update_manifest (H:=Samples.three_chunks)
         "docs" "v1" "sample_docs/a.txt" "uuid-a" w1).2 = stored "docs" w1.
Proof.
  destruct (ingest_version Samples.upsert_v1 Samples.docs_world) as [r w1] eqn:E.
  assert (Er : r = Return (mkResponse "ingest started" "docs" "v1" "uuid-0")).
  { vm_compute in E. congruence. }
  subst r. exists w1. split; [reflexivity|].
  apply (stale_worker_after_submission (H:=Samples.three_chunks)
           Samples.upsert_v1 Samples.docs_world _ w1 "sample_docs/a.txt" "uuid-a" E).
  discriminate.
Defined.

Lemma s3_put_keeps_other_datasets_witness :
  stored "other"
    (put_manifest "docs" (mkManifest "docs" []) Samples.bucket_world).2 =
  stored "other" Samples.bucket_world.
Proof.
  apply (s3_put_keeps_other_datasets "docs" "other" (mkManifest "docs" [])
           Samples.bucket_world); [reflexivity|discriminate].
Defined.

End IngestMore.

(* ===================================================================== *)
(** * Further properties of app/rag_utils.py *)
(* ===================================================================== *)

Module RagMore.
Import RagUtils RagObs RagFacts.

(** ** The Cauchy-Schwarz inequality for [dot] *)

Lemma dot_cons x y u v : dot (x :: u) (y :: v) = (x * y + dot u v)%R.
Proof. reflexivity. Qed.

Lemma dot_sqr_le u v : (dot u v * dot u v <= sum_sq u * sum_sq v)%R.
Proof.
  revert v. induction u as [|x u IH]; intros [|y v].
  - cbn. lra.
  - cbn. lra.
  - pose proof (sum_sq_nonneg (x :: u)). cbn [dot combine fold_right]. cbn [sum_sq fold_right].
    unfold dot. cbn. lra.
  - rewrite dot_cons, !sum_sq_cons. specialize (IH v).
    pose proof (sum_sq_nonneg u) as Ha. pose proof (sum_sq_nonneg v) as Hb.
    set (D := dot u v) in *. set (A := sum_sq u) in *. set (B := sum_sq v) in *.
    destruct (Req_dec B 0) as [HB|HB].
    + assert (HD : D = 0%R) by nra. rewrite HD, HB. nra.
    + assert (HBpos : (0 < B)%R) by lra.
      assert (Hkey : (0 <= B * (x * x * B + y * y * A - 2 * x * y * D))%R).
      { replace (B * (x * x * B + y * y * A - 2 * x * y * D))%R
          with ((x * B - y * D) * (x * B - y * D) + y * y * (A * B - D * D))%R by ring.
        pose proof (Rle_0_sqr (x * B - y * D)) as H1. unfold Rsqr in H1.
        pose proof (Rle_0_sqr y) as H2. unfold Rsqr in H2. nra. }
      assert (Hpos : (0 <= x * x * B + y * y * A - 2 * x * y * D)%R).
      { destruct (Rle_dec 0 (x * x * B + y * y * A - 2 * x * y * D)) as [Hle|Hgt];
          [exact Hle|]. exfalso. apply Rnot_le_lt in Hgt. nra. }
      nra.
Qed.

Lemma dot_le_norms u v : (dot u v <= norm u * norm v)%R.
Proof.
  pose proof (norm_nonneg u) as Hu. pose proof (norm_nonneg v) as Hv.
  destruct (Rle_dec (dot u v) 0) as [Hneg|Hpos]; [nra|].
  apply Rsqr_incr_0_var; [|nra]. unfold Rsqr.
  replace (norm u * norm v * (norm u * norm v))%R
    with ((norm u * norm u) * (norm v * norm v))%R by ring.
  rewrite !norm_sqr. apply dot_sqr_le.
Qed.

Lemma dot_opp_l u v : dot (map Ropp u) v = (- dot u v)%R.
Proof.
  revert v. induction u as [|x u IH]; intros [|y v]; cbn [map];
    try (unfold dot; cbn; lra).
  rewrite !dot_cons, IH. ring.
Qed.

Lemma sum_sq_opp u : sum_sq (map Ropp u) = sum_sq u.
Proof.
  induction u as [|x u IH]; [reflexivity|]. cbn [map]. rewrite !sum_sq_cons, IH. ring.
Qed.

Lemma dot_ge_norms u v : (- (norm u * norm v) <= dot u v)%R.
Proof.
  pose proof (dot_le_norms (map Ropp u) v) as H. rewrite dot_opp_l in H.
  unfold norm in H at 1. rewrite sum_sq_opp in H. fold (norm u) in H. lra.
Qed.

(** ** Norms of the normalised vectors *)

Lemma eps_pos : (0 < eps)%R.
Proof. unfold eps. apply Rinv_0_lt_compat. lra. Qed.

Lemma norm_normed_row r :
  norm (map (fun x => x / replace_zero (norm r))%R r) = (if Req_dec_T (norm r) 0 then 0 else 1)%R.
Proof.
  unfold replace_zero. destruct (Req_dec_T (norm r) 0) as [E|E].
  - rewrite map_div_one. exact E.
  - apply norm_scaled_row. pose proof (norm_nonneg r). lra.
Qed.

Lemma norm_normed_row_le r :
  (0 <= norm (map (fun x => x / replace_zero (norm r))%R r) <= 1)%R.
Proof. rewrite norm_normed_row. destruct (Req_dec_T (norm r) 0); lra. Qed.

Lemma norm_normalize_query q :
  norm (normalize_query q) = (norm q / (norm q + eps))%R.
Proof.
  pose proof eps_pos as He. pose proof (norm_nonneg q) as Hq.
  unfold normalize_query. unfold norm at 1. rewrite sum_sq_scale by lra.
  rewrite <- norm_sqr.
  replace (norm q * norm q / ((norm q + eps) * (norm q + eps)))%R
    with ((norm q / (norm q + eps)) * (norm q / (norm q + eps)))%R by (field; lra).
  apply sqrt_square. apply Rmult_le_pos; [exact Hq|].
  left. apply Rinv_0_lt_compat. lra.
Qed.

Lemma norm_normalize_query_bounds q :
  (0 <= norm q / (norm q + eps) < 1)%R.
Proof.
  pose proof eps_pos as He. pose proof (norm_nonneg q) as Hq.
  assert (Hpos : (0 < norm q + eps)%R) by lra. split.
  - apply Rmult_le_pos; [exact Hq|]. left. apply Rinv_0_lt_compat. exact Hpos.
  - apply (Rmult_lt_reg_r (norm q + eps)); [exact Hpos|].
    unfold Rdiv. rewrite Rmult_assoc, Rinv_l by lra. lra.
Qed.

(** The score of one row against one query vector. *)
Lemma score_bounds e q :
  (- (norm q / (norm q + eps)) <=
   dot (map (fun x => x / replace_zero (norm e))%R e) (normalize_query q) <=
   norm q / (norm q + eps))%R.
Proof.
  pose proof (dot_le_norms (map (fun x => x / replace_zero (norm e))%R e)
                (normalize_query q)) as Hle.
  pose proof (dot_ge_norms (map (fun x => x / replace_zero (norm e))%R e)
                (normalize_query q)) as Hge.
  rewrite norm_normalize_query in Hle, Hge.
  pose proof (norm_normed_row_le e) as Hr.
  pose proof (norm_normalize_query_bounds q) as Hq. nra.
Qed.

Lemma dot_scaled_self e a b :
  a <> 0%R -> b <> 0%R ->
  dot (map (fun x => x / a)%R e) (map (fun x => x / b)%R e) = (sum_sq e / (a * b))%R.
Proof.
  intros Ha Hb. induction e as [|x e IH].
  - cbn. unfold dot. cbn. unfold Rdiv. rewrite Rmult_0_l. reflexivity.
  - cbn [map]. rewrite dot_cons, sum_sq_cons, IH. field. auto.
Qed.

Lemma self_score e :
  dot (map (fun x => x / replace_zero (norm e))%R e) (normalize_query e)
  = (norm e / (norm e + eps))%R.
Proof.
  pose proof eps_pos as He. pose proof (norm_nonneg e) as Hn.
  unfold normalize_query. rewrite dot_scaled_self
    by (try apply replace_zero_nonzero; lra).
  unfold replace_zero. destruct (Req_dec_T (norm e) 0) as [E|E].
  - assert (Hs : sum_sq e = 0%R) by (rewrite <- norm_sqr, E; ring).
    rewrite Hs, E. field. lra.
  - rewrite <- norm_sqr. field. lra.
Qed.

(** ** The ranking behind the results of a query *)

Lemma slice_to_prefix {A} k (l : list A) : exists rest, l = (slice_to k l ++ rest)%list.
Proof.
  unfold slice_to. destruct (0 <=? k)%Z; eexists; symmetry; apply firstn_skipn.
Qed.

Lemma StronglySorted_app_cross {A} (Rel : A -> A -> Prop) l1 l2 x y :
  StronglySorted Rel (l1 ++ l2) -> In x l1 -> In y l2 -> Rel x y.
Proof.
  induction l1 as [|a l1 IH]; cbn; intros Hs Hx Hy; [contradiction|].
  apply StronglySorted_inv in Hs as [Hs Ha]. destruct Hx as [->|Hx].
  - rewrite List.Forall_forall in Ha. apply Ha, in_or_app. right. exact Hy.
  - apply IH; assumption.
Qed.

Lemma map_nth_seq {A} (l : list A) d :
  map (fun i => nth i l d) (seq 0 (length l)) = l.
Proof.
  induction l as [|x l IH]; [reflexivity|]. cbn [length seq map nth]. f_equal.
  rewrite <- seq_shift, map_map. exact IH.
Qed.

Section Ranking.

Context {Metadata : Type} (empty_metadata : Metadata).
Variable encode : list string -> ndarray.
Variable argsort : list R -> list nat.
Variable d : nat.
Hypothesis encode_ok : encoder_contract encode d.
Hypothesis argsort_ok : argsort_contract argsort.

Lemma built_index_fields chunks pd :
  let idx := create_or_load_index Metadata empty_metadata encode chunks pd in
  texts Metadata idx = map (page_content Metadata) chunks /\
  metadatas Metadata idx = map (doc_metadata Metadata) chunks /\
  exists es,
    embeddings Metadata idx = Matrix d es /\
    length es = length chunks /\ Forall (fun e => length e = d) es /\
    normed Metadata idx =
      Matrix d (map (fun e => map (fun x => x / replace_zero (norm e))%R e) es).
Proof.
  cbv zeta. unfold create_or_load_index, __init__.
  cbn [texts metadatas embeddings normed].
  split; [reflexivity|]. split; [destruct chunks; reflexivity|].
  destruct (encode_ok (map (page_content Metadata) chunks)) as (es & E & Hlen & Hd).
  exists es. unfold _embed_texts. rewrite E. rewrite length_map in Hlen.
  split; [reflexivity|]. split; [exact Hlen|]. split; [exact Hd|].
  pose proof (normalize_rows (Matrix d es)) as Hn. cbn [rows] in Hn.
  unfold normalize in *. cbn [ncols rows] in *. rewrite Hn. reflexivity.
Qed.

Lemma similarities_eval chunks pd qtext :
  let idx := create_or_load_index Metadata empty_metadata encode chunks pd in
  exists q,
    encode [qtext] = Array2 d [q] /\
    similarities Metadata idx (_embed_texts encode [qtext]) =
      Some (map (fun e => dot (map (fun x => x / replace_zero (norm e))%R e)
                              (normalize_query q))
                (rows (embeddings Metadata idx))).
Proof.
  cbv zeta. destruct (built_index_fields chunks pd) as (_ & _ & es & He & _ & _ & Hn).
  destruct (encode_ok [qtext]) as (qs & Eq & Hq & _).
  destruct qs as [|q [|q' qs]]; try discriminate Hq.
  exists q. split; [exact Eq|].
  unfold similarities, squeezed_product, _embed_texts. rewrite Eq, Hn, He.
  cbn [ncols rows]. rewrite Nat.eqb_refl. cbn [negb]. rewrite map_map. reflexivity.
Qed.

Lemma query_ranking chunks pd qtext top_k :
  let idx := create_or_load_index Metadata empty_metadata encode chunks pd in
  exists sims,
    similarities Metadata idx (_embed_texts encode [qtext]) = Some sims /\
    length sims = length chunks /\
    List.NoDup (top_indices argsort sims top_k) /\
    (forall i, In i (top_indices argsort sims top_k) -> i < length chunks) /\
    (forall i j, In i (top_indices argsort sims top_k) -> j < length chunks ->
                 ~ In j (top_indices argsort sims top_k) ->
                 (nth j sims 0 <= nth i sims 0)%R) /\
    query Metadata encode argsort idx qtext top_k =
      Some (map (fun i => mkResult (nth i (map (page_content Metadata) chunks) "")
                                   (nth i sims 0%R)
                                   (nth i (map (doc_metadata Metadata) chunks) empty_metadata))
                (top_indices argsort sims top_k)).
Proof.
  cbv zeta.
  destruct (query_eval empty_metadata encode argsort d encode_ok argsort_ok
              chunks pd qtext top_k) as (sims & Hs & Hlen & Hq).
  destruct (built_index_fields chunks pd) as (Ht & Hm & _).
  exists sims. split; [exact Hs|]. split; [exact Hlen|].
  destruct (argsort_ok (map Ropp sims)) as [Hp Hsorted].
  rewrite length_map, Hlen in Hp.
  destruct (slice_to_prefix top_k (argsort (map Ropp sims))) as (rest & Hrest).
  fold (top_indices argsort sims top_k) in Hrest.
  assert (Hnd : List.NoDup (argsort (map Ropp sims))).
  { eapply Permutation_NoDup; [symmetry; exact Hp|apply seq_NoDup]. }
  split; [|split; [|split]].
  - rewrite Hrest in Hnd. eapply NoDup_app_remove_r, Hnd.
  - intros i Hi. assert (Hin : In i (argsort (map Ropp sims)))
      by (rewrite Hrest; apply in_or_app; left; exact Hi).
    apply (Permutation_in _ Hp), in_seq in Hin. lia.
  - intros i j Hi Hj Hnj.
    assert (Hjin : In j (argsort (map Ropp sims))).
    { apply (Permutation_in _ (Permutation_sym Hp)), in_seq. lia. }
    rewrite Hrest in Hjin, Hsorted. apply in_app_or in Hjin as [Hjin|Hjin];
      [contradiction|].
    pose proof (StronglySorted_app_cross _ _ _ i j Hsorted Hi Hjin) as Hle.
    cbn beta in Hle. rewrite !nth_map_opp in Hle. lra.
  - rewrite Hq, Ht, Hm. reflexivity.
Qed.

(** X14. A built index is aligned: it holds as many texts, metadata,
    embedding rows and normalised rows as chunks were given, of the encoder's
    dimension, and at each position the text and the metadata of the chunk
    of that position. *)
Theorem built_index_is_aligned chunks pd :
  let idx := create_or_load_index Metadata empty_metadata encode chunks pd in
  length (texts Metadata idx) = length chunks /\
  length (metadatas Metadata idx) = length chunks /\
  length (rows (embeddings Metadata idx)) = length chunks /\
  length (rows (normed Metadata idx)) = length chunks /\
  ncols (embeddings Metadata idx) = d /\ ncols (normed Metadata idx) = d /\
  Forall (fun r => length r = d) (rows (normed Metadata idx)) /\
  forall i c, nth_error chunks i = Some c ->
    nth_error (texts Metadata idx) i = Some (page_content Metadata c) /\
    nth_error (metadatas Metadata idx) i = Some (doc_metadata Metadata c).
Proof.
  cbv zeta.
  destruct (built_index_fields chunks pd) as (Ht & Hm & es & He & Hlen & Hd & Hn).
  rewrite Ht, Hm, He, Hn. cbn [rows ncols]. rewrite !length_map.
  repeat split; try assumption; try reflexivity.
  - apply List.Forall_forall. intros r Hr. apply in_map_iff in Hr as (e & <- & He').
    rewrite length_map. rewrite List.Forall_forall in Hd. apply Hd, He'.
  - apply map_nth_error. assumption.
  - apply map_nth_error. assumption.
Qed.

(** X15. Every result of a query is one of the indexed chunks, with the text,
    the metadata and the score of that chunk, and no chunk is returned
    twice. *)
Theorem results_are_distinct_chunks chunks pd qtext top_k :
  exists sims idxs rs,
    similarities Metadata
      (create_or_load_index Metadata empty_metadata encode chunks pd)
      (_embed_texts encode [qtext]) = Some sims /\
    query Metadata encode argsort
      (create_or_load_index Metadata empty_metadata encode chunks pd) qtext top_k
    = Some rs /\
    List.NoDup idxs /\
    Forall2 (fun i r => exists c,
               nth_error chunks i = Some c /\
               text r = page_content Metadata c /\
               metadata r = doc_metadata Metadata c /\
               nth_error sims i = Some (score r))
            idxs rs.
Proof.
  destruct (query_ranking chunks pd qtext top_k)
    as (sims & Hs & Hlen & Hnd & Hlt & _ & Hq).
  eexists sims, (top_indices argsort sims top_k), _.
  split; [exact Hs|]. split; [exact Hq|]. split; [exact Hnd|].
  clear Hq Hnd. revert Hlt.
  induction (top_indices argsort sims top_k) as [|i l IH]; intros Hlt; cbn [map];
    constructor.
  - assert (Hi : i < length chunks) by (apply Hlt; left; reflexivity).
    destruct (nth_error chunks i) as [c|] eqn:Ec;
      [|apply nth_error_None in Ec; lia].
    exists c. cbn [text metadata score]. split; [reflexivity|].
    split; [|split].
    + apply nth_error_nth. apply map_nth_error. exact Ec.
    + apply nth_error_nth. apply map_nth_error. exact Ec.
    + apply nth_error_nth'. lia.
  - apply IH. intros j Hj. apply Hlt. right. exact Hj.
Qed.

(** X16. The results are the best matches: a chunk that is not among the
    results of a query scores no higher than any chunk that is. *)
Theorem results_are_the_best chunks pd qtext top_k :
  exists sims idxs rs,
    similarities Metadata
      (create_or_load_index Metadata empty_metadata encode chunks pd)
      (_embed_texts encode [qtext]) = Some sims /\
    query Metadata encode argsort
      (create_or_load_index Metadata empty_metadata encode chunks pd) qtext top_k
    = Some rs /\
    Forall2 (fun i r => nth_error sims i = Some (score r)) idxs rs /\
    forall j s r,
      nth_error sims j = Some s -> ~ In j idxs -> In r rs -> (s <= score r)%R.
Proof.
  destruct (query_ranking chunks pd qtext top_k)
    as (sims & Hs & Hlen & _ & Hlt & Hbest & Hq).
  eexists sims, (top_indices argsort sims top_k), _.
  split; [exact Hs|]. split; [exact Hq|]. split.
  - assert (Hall : forall i, In i (top_indices argsort sims top_k) -> i < length sims)
      by (intros i Hi; rewrite Hlen; apply Hlt, Hi).
    clear Hq Hbest Hlt. revert Hall.
    induction (top_indices argsort sims top_k) as [|i l IH]; intros Hall; cbn [map];
      constructor.
    + cbn [score]. apply nth_error_nth'. apply Hall. left. reflexivity.
    + apply IH. intros j Hj. apply Hall. right. exact Hj.
  - intros j s r Hj Hnj Hr. apply in_map_iff in Hr as (i & <- & Hi). cbn [score].
    assert (Hjlt : j < length chunks).
    { rewrite <- Hlen. apply nth_error_Some. congruence. }
    rewrite <- (nth_error_nth _ _ 0%R Hj). apply Hbest; assumption.
Qed.

(** X17. With [top_k] at least the number of chunks, a query returns the
    whole index, ranked: the texts of the results are the texts of the
    chunks, each once, in some order. *)
Theorem query_ranks_whole_index chunks pd qtext top_k :
  (Z.of_nat (length chunks) <= top_k)%Z ->
  exists rs,
    query Metadata encode argsort
      (create_or_load_index Metadata empty_metadata encode chunks pd) qtext top_k
    = Some rs /\
    Permutation (map text rs) (map (page_content Metadata) chunks).
Proof.
  intros Hk. destruct (query_ranking chunks pd qtext top_k)
    as (sims & _ & Hlen & _ & _ & _ & Hq).
  eexists. split; [exact Hq|]. rewrite map_map. cbn [text].
  destruct (argsort_ok (map Ropp sims)) as [Hp _]. rewrite length_map, Hlen in Hp.
  assert (Hall : top_indices argsort sims top_k = argsort (map Ropp sims)).
  { unfold top_indices, slice_to. destruct (Z.leb_spec 0 top_k); [|lia].
    apply firstn_all2. rewrite (Permutation_length Hp), length_seq. lia. }
  rewrite Hall, (Permutation_map _ Hp).
  rewrite <- (length_map (page_content Metadata) chunks), map_nth_seq. reflexivity.
Qed.

Lemma top_indices_sorted sims top_k :
  StronglySorted (fun i j => (nth j sims 0 <= nth i sims 0)%R)
                 (top_indices argsort sims top_k).
Proof.
  unfold top_indices. apply StronglySorted_slice_to.
  destruct (argsort_ok (map Ropp sims)) as [_ Hs].
  eapply StronglySorted_impl; [|exact Hs].
  intros i j. cbn beta. rewrite !nth_map_opp. lra.
Qed.

(** X18. [top_k] is not checked. With [top_k = 0] a query returns nothing.
    With a negative [top_k] it returns the ranking of the whole index (what
    [top_k = n] returns for [n] chunks: every chunk, in descending order of
    score) without its last [-top_k] results: the slice [[:top_k]] drops the
    lowest-ranked chunks and keeps all the others, in their order. *)
Theorem query_with_nonpositive_top_k chunks pd qtext top_k :
  (top_k <= 0)%Z ->
  exists ranking rs,
    query Metadata encode argsort
      (create_or_load_index Metadata empty_metadata encode chunks pd) qtext
      (Z.of_nat (length chunks))
    = Some ranking /\
    length ranking = length chunks /\
    by_score_desc ranking /\
    query Metadata encode argsort
      (create_or_load_index Metadata empty_metadata encode chunks pd) qtext top_k
    = Some rs /\
    rs = if (top_k =? 0)%Z then []
         else firstn (length chunks - Z.to_nat (- top_k)) ranking.
Proof.
  intros Hk.
  destruct (query_eval empty_metadata encode argsort d encode_ok argsort_ok
              chunks pd qtext (Z.of_nat (length chunks))) as (sims & Hs & Hlen & Hall).
  destruct (query_eval empty_metadata encode argsort d encode_ok argsort_ok
              chunks pd qtext top_k) as (sims' & Hs' & _ & Hq).
  rewrite Hs in Hs'. injection Hs' as <-.
  destruct (argsort_ok (map Ropp sims)) as [Hp _]. rewrite length_map, Hlen in Hp.
  apply Permutation_length in Hp. rewrite length_seq in Hp.
  assert (Hfull : top_indices argsort sims (Z.of_nat (length chunks)) =
                  argsort (map Ropp sims)).
  { unfold top_indices, slice_to. destruct (Z.leb_spec 0 (Z.of_nat (length chunks))); [|lia].
    apply firstn_all2. lia. }
  eexists _, _. split; [exact Hall|]. split; [|split; [|split; [exact Hq|]]].
  - rewrite length_map, Hfull. exact Hp.
  - unfold by_score_desc. apply StronglySorted_map. cbn [score].
    eapply StronglySorted_impl; [|apply top_indices_sorted]. cbn beta. intros i j. lra.
  - rewrite Hfull. unfold top_indices, slice_to.
    destruct (Z.eqb_spec top_k 0) as [->|Hne]; [reflexivity|].
    destruct (Z.leb_spec 0 top_k); [lia|]. rewrite Hp. symmetry. apply firstn_map.
Qed.

(** X19. Every score that a query returns lies between -1 and 1. *)
Theorem scores_within_unit chunks pd qtext top_k :
  exists rs,
    query Metadata encode argsort
      (create_or_load_index Metadata empty_metadata encode chunks pd) qtext top_k
    = Some rs /\
    Forall (fun r => (-1 <= score r <= 1)%R) rs.
Proof.
  destruct (query_ranking chunks pd qtext top_k)
    as (sims & Hs & Hlen & _ & Hlt & _ & Hq).
  destruct (similarities_eval chunks pd qtext) as (q & _ & Hs').
  rewrite Hs in Hs'. injection Hs' as Hs'.
  eexists. split; [exact Hq|]. apply List.Forall_forall. intros r Hr.
  apply in_map_iff in Hr as (i & <- & Hi). cbn [score].
  assert (Hin : In (nth i sims 0%R) sims) by (apply nth_In; rewrite Hlen; apply Hlt, Hi).
  rewrite Hs' in Hin at 2. apply in_map_iff in Hin as (e & He & _). rewrite <- He.
  pose proof (score_bounds e q) as Hb.
  pose proof (norm_normalize_query_bounds q) as Hq'. lra.
Qed.

(** X21. Zero vectors score zero, and nothing is divided by zero. The rows
    of the index are the embeddings divided by [safe_norms], none of which is
    zero, and the scores are their products with the query divided by its
    norm plus [1e-12], which is positive. A chunk whose embedding has norm
    zero scores 0 against every query, and a query whose embedding has norm
    zero scores 0 against every chunk. *)
Theorem zero_vectors_score_zero chunks pd qtext :
  let idx := create_or_load_index Metadata empty_metadata encode chunks pd in
  exists q sims,
    encode [qtext] = Array2 d [q] /\
    similarities Metadata idx (_embed_texts encode [qtext]) = Some sims /\
    rows (normed Metadata idx) =
      zip_with (fun r n => map (fun x => x / n)%R r)
               (rows (embeddings Metadata idx)) (safe_norms (embeddings Metadata idx)) /\
    Forall (fun n => n <> 0%R) (safe_norms (embeddings Metadata idx)) /\
    sims = map (fun r => dot r (map (fun x => x / (norm q + eps))%R q))
               (rows (normed Metadata idx)) /\
    (0 < norm q + eps)%R /\
    (norm q = 0%R -> Forall (fun s => s = 0%R) sims) /\
    (forall i e,
       nth_error (rows (embeddings Metadata idx)) i = Some e ->
       norm e = 0%R -> nth_error sims i = Some 0%R).
Proof.
  cbv zeta.
  destruct (similarities_eval chunks pd qtext) as (q & Eq & Hs).
  destruct (built_index_fields chunks pd) as (_ & _ & es & He & _ & _ & Hn).
  eexists q, _. split; [exact Eq|]. split; [exact Hs|].
  split; [reflexivity|]. split; [|split; [|split; [|split]]].
  - apply List.Forall_forall. intros n Hin. unfold safe_norms in Hin.
    apply in_map_iff in Hin as (n' & <- & _). apply replace_zero_nonzero.
  - rewrite Hn, He. cbn [rows]. rewrite map_map. reflexivity.
  - pose proof eps_pos. pose proof (norm_nonneg q). lra.
  - intros Hq. apply List.Forall_forall. intros s Hin.
    apply in_map_iff in Hin as (e & <- & _).
    pose proof (score_bounds e q) as Hb. rewrite Hq in Hb.
    unfold Rdiv in Hb. rewrite Rmult_0_l in Hb. lra.
  - intros i e Hi He0. erewrite map_nth_error by exact Hi. f_equal.
    pose proof (dot_le_norms (map (fun x => x / replace_zero (norm e))%R e)
                  (normalize_query q)) as Hle.
    pose proof (dot_ge_norms (map (fun x => x / replace_zero (norm e))%R e)
                  (normalize_query q)) as Hge.
    rewrite norm_normed_row in Hle, Hge.
    destruct (Req_dec_T (norm e) 0) as [_|Hne]; [|contradiction]. lra.
Qed.

End Ranking.

(** ** Self-similarity *)

Section SelfSimilarity.

Context {Metadata : Type} (empty_metadata : Metadata).
Variable encode : list string -> ndarray.
Variable argsort : list R -> list nat.
Variable d : nat.

(** The encoder embeds each text on its own: the row of a text does not
    depend on the batch it is in. *)
Variable emb : string -> list R.
Hypothesis encode_pointwise : forall ts, encode ts = Array2 d (map emb ts).
Hypothesis emb_dim : forall t, length (emb t) = d.
Hypothesis argsort_ok : argsort_contract argsort.

Lemma pointwise_encoder_contract : encoder_contract encode d.
Proof.
  intros ts. exists (map emb ts). split; [apply encode_pointwise|].
  split; [apply length_map|]. apply List.Forall_forall. intros r Hr.
  apply in_map_iff in Hr as (t & <- & _). apply emb_dim.
Qed.

(** X20. Querying with the text of an indexed chunk: that chunk's score is
    [n / (n + 1e-12)], with [n] the norm of its embedding, no chunk scores
    higher, and for [top_k >= 1] it is the score of the first result. *)
Theorem self_similarity_is_maximal chunks pd i c top_k :
  nth_error chunks i = Some c ->
  (1 <= top_k)%Z ->
  let qtext := page_content Metadata c in
  let best := (norm (emb qtext) / (norm (emb qtext) + eps))%R in
  exists sims r rs,
    similarities Metadata
      (create_or_load_index Metadata empty_metadata encode chunks pd)
      (_embed_texts encode [qtext]) = Some sims /\
    nth_error sims i = Some best /\
    Forall (fun s => (s <= best)%R) sims /\
    query Metadata encode argsort
      (create_or_load_index Metadata empty_metadata encode chunks pd) qtext top_k
    = Some (r :: rs) /\
    score r = best.
Proof.
  intros Hc Hk. cbv zeta. set (qtext := page_content Metadata c).
  pose proof pointwise_encoder_contract as Henc.
  destruct (query_ranking empty_metadata encode argsort d Henc argsort_ok
              chunks pd qtext top_k) as (sims & Hs & Hlen & _ & Hlt & Hbest & Hq).
  destruct (similarities_eval empty_metadata encode d Henc chunks pd qtext)
    as (q & Eq & Hs').
  rewrite encode_pointwise in Eq. cbn in Eq. injection Eq as <-.
  destruct (built_index_fields empty_metadata encode d Henc chunks pd)
    as (_ & _ & es & He & _ & _ & _).
  assert (Hes : es = map emb (map (page_content Metadata) chunks)).
  { unfold create_or_load_index, __init__, _embed_texts in He.
    cbn [embeddings] in He. rewrite encode_pointwise in He. congruence. }
  rewrite He in Hs'. cbn [rows] in Hs'. rewrite Hs in Hs'. injection Hs' as Hsims.
  assert (Hi : nth_error sims i = Some (norm (emb qtext) / (norm (emb qtext) + eps))%R).
  { rewrite Hsims, Hes. erewrite map_nth_error;
      [|apply map_nth_error, map_nth_error; exact Hc].
    fold qtext. rewrite self_score. reflexivity. }
  assert (Hall : Forall (fun s => (s <= norm (emb qtext) / (norm (emb qtext) + eps))%R) sims).
  { rewrite Hsims. apply List.Forall_forall. intros s Hin.
    apply in_map_iff in Hin as (e & <- & _). apply score_bounds. }
  assert (Hilt : i < length chunks) by (apply nth_error_Some; congruence).
  pose proof (top_indices_sorted argsort argsort_ok sims top_k) as Hsorted.
  destruct (top_indices argsort sims top_k) as [|i0 idxs] eqn:Etop.
  { exfalso. apply (f_equal (@length nat)) in Etop. unfold top_indices in Etop.
    rewrite slice_to_length in Etop by exact Hk.
    destruct (argsort_ok (map Ropp sims)) as [Hp _].
    rewrite (Permutation_length Hp), length_seq, length_map, Hlen in Etop.
    cbn in Etop. lia. }
  cbn [map] in Hq. eexists sims, _, _. split; [exact Hs|]. split; [exact Hi|].
  split; [exact Hall|]. split; [exact Hq|]. cbn [score].
  apply Rle_antisym.
  - rewrite List.Forall_forall in Hall. apply Hall, nth_In.
    rewrite Hlen. apply Hlt. left. reflexivity.
  - rewrite <- (nth_error_nth _ _ 0%R Hi).
    destruct (Nat.eq_dec i i0) as [->|Hne]; [lra|].
    destruct (in_dec Nat.eq_dec i idxs) as [Hin|Hnin].
    + apply StronglySorted_inv in Hsorted as [_ Hhead].
      rewrite List.Forall_forall in Hhead. apply Hhead, Hin.
    + apply Hbest; [left; reflexivity|exact Hilt|].
      intros [Heq|Hin]; [congruence|contradiction].
Qed.

End SelfSimilarity.

(** X22. When the encoder answers the empty batch with a 1-D empty array
    (what [np.asarray([])] is), an index built from zero chunks has one row
    of no column, and every query whose embedding has a column raises. *)
Theorem query_raises_on_flat_empty_batch Metadata (empty_metadata : Metadata)
    encode argsort pd qtext top_k :
  encode [] = Array1 [] ->
  ncols (_embed_texts encode [qtext]) <> 0 ->
  query Metadata encode argsort
    (create_or_load_index Metadata empty_metadata encode [] pd) qtext top_k = None.
Proof.
  intros E0 Hd. unfold query, squeezed_product, create_or_load_index, __init__.
  cbn [map normed]. unfold _embed_texts at 1. rewrite E0. cbn [ncols normalize length].
  destruct (ncols (_embed_texts encode [qtext])); [contradiction|reflexivity].
Qed.

Lemma query_raises_on_flat_empty_batch_witness :
  query unit flat_empty_encoder argsort_stable
    (create_or_load_index unit tt flat_empty_encoder [] None) "q" 3 = None.
Proof.
  apply (query_raises_on_flat_empty_batch unit tt flat_empty_encoder argsort_stable
           None "q" 3); [reflexivity|cbn; discriminate].
Defined.

(** ** Instances *)

Lemma built_index_is_aligned_witness :
  length (texts unit (create_or_load_index unit tt constant_encoder [chunk_a; chunk_b] None))
  = 2 /\
  length (rows (normed unit
    (create_or_load_index unit tt constant_encoder [chunk_a; chunk_b] None))) = 2.
Proof.
  destruct (@built_index_is_aligned unit tt constant_encoder 1 constant_encoder_contract
              [chunk_a; chunk_b] None) as (Ht & _ & _ & Hn & _).
  split; [exact Ht|exact Hn].
Defined.

Lemma results_are_distinct_chunks_witness :
  exists sims idxs rs,
    similarities unit
      (create_or_load_index unit tt constant_encoder [chunk_a; chunk_b] None)
      (_embed_texts constant_encoder ["q"]) = Some sims /\
    query unit constant_encoder argsort_stable
      (create_or_load_index unit tt constant_encoder [chunk_a; chunk_b] None) "q" 2
    = Some rs /\
    List.NoDup idxs /\
    Forall2 (fun i r => exists c,
               nth_error [chunk_a; chunk_b] i = Some c /\
               text r = page_content unit c /\
               metadata r = doc_metadata unit c /\
               nth_error sims i = Some (score r))
            idxs rs.
Proof.
  exact (@results_are_distinct_chunks unit tt constant_encoder argsort_stable 1
           constant_encoder_contract argsort_stable_contract
           [chunk_a; chunk_b] None "q" 2).
Defined.

Lemma results_are_the_best_witness :
  exists sims idxs rs,
    similarities unit
      (create_or_load_index unit tt constant_encoder [chunk_a; chunk_b] None)
      (_embed_texts constant_encoder ["q"]) = Some sims /\
    query unit constant_encoder argsort_stable
      (create_or_load_index unit tt constant_encoder [chunk_a; chunk_b] None) "q" 1
    = Some rs /\
    Forall2 (fun i r => nth_error sims i = Some (score r)) idxs rs /\
    forall j s r,
      nth_error sims j = Some s -> ~ In j idxs -> In r rs -> (s <= score r)%R.
Proof.
  exact (@results_are_the_best unit tt constant_encoder argsort_stable 1
           constant_encoder_contract argsort_stable_contract
           [chunk_a; chunk_b] None "q" 1).
Defined.

Lemma query_ranks_whole_index_witness :
  exists rs,
    query unit constant_encoder argsort_stable
      (create_or_load_index unit tt constant_encoder [chunk_a; chunk_b] None) "q" 5
    = Some rs /\
    Permutation (map text rs) ["a"; "b"].
Proof.
  apply (@query_ranks_whole_index unit tt constant_encoder argsort_stable 1
           constant_encoder_contract argsort_stable_contract
           [chunk_a; chunk_b] None "q" 5).
  cbn. lia.
Defined.

Lemma query_with_nonpositive_top_k_witness :
  exists ranking rs,
    query unit constant_encoder argsort_stable
      (create_or_load_index unit tt constant_encoder [chunk_a; chunk_b] None) "q" 2
    = Some ranking /\
    query unit constant_encoder argsort_stable
      (create_or_load_index unit tt constant_encoder [chunk_a; chunk_b] None) "q" (-1)
    = Some rs /\
    rs = firstn 1 ranking.
Proof.
  destruct (@query_with_nonpositive_top_k unit tt constant_encoder argsort_stable 1
              constant_encoder_contract argsort_stable_contract
              [chunk_a; chunk_b] None "q" (-1)%Z)
    as (ranking & rs & Hall & _ & _ & Hq & Hrs); [lia|].
  exists ranking, rs. split; [exact Hall|]. split; [exact Hq|exact Hrs].
Defined.

Lemma scores_within_unit_witness :
  exists rs,
    query unit constant_encoder argsort_stable
      (create_or_load_index unit tt constant_encoder [chunk_a; chunk_b] None) "q" 2
    = Some rs /\
    Forall (fun r => (-1 <= score r <= 1)%R) rs.
Proof.
  exact (@scores_within_unit unit tt constant_encoder argsort_stable 1
           constant_encoder_contract argsort_stable_contract
           [chunk_a; chunk_b] None "q" 2).
Defined.

Lemma zero_encoder_contract : encoder_contract (fun ts => Array2 1 (map (fun _ => [0%R]) ts)) 1.
Proof.
  intros ts. eexists. split; [reflexivity|]. split; [apply length_map|].
  apply List.Forall_forall. intros r Hr. apply in_map_iff in Hr as (_ & <- & _).
  reflexivity.
Qed.

Lemma zero_vectors_score_zero_witness :
  exists sims,
    similarities unit
      (create_or_load_index unit tt (fun ts => Array2 1 (map (fun _ => [0%R]) ts))
         [chunk_a; chunk_b] None)
      (_embed_texts (fun ts => Array2 1 (map (fun _ => [0%R]) ts)) ["q"]) = Some sims /\
    Forall (fun s => s = 0%R) sims.
Proof.
  destruct (@zero_vectors_score_zero unit tt (fun ts => Array2 1 (map (fun _ => [0%R]) ts))
              1 zero_encoder_contract [chunk_a; chunk_b] None "q")
    as (q & sims & Eq & Hs & _ & _ & _ & _ & Hz & _).
  exists sims. split; [exact Hs|]. apply Hz. injection Eq as <-.
  unfold norm. rewrite sum_sq_cons. cbn.
  replace (0 * 0 + 0)%R with 0%R by lra. apply sqrt_0.
Defined.

Lemma self_similarity_is_maximal_witness :
  exists sims r rs,
    similarities unit
      (create_or_load_index unit tt constant_encoder [chunk_a; chunk_b] None)
      (_embed_texts constant_encoder ["b"]) = Some sims /\
    nth_error sims 1 = Some (norm [1%R] / (norm [1%R] + eps))%R /\
    Forall (fun s => (s <= norm [1%R] / (norm [1%R] + eps))%R) sims /\
    query unit constant_encoder argsort_stable
      (create_or_load_index unit tt constant_encoder [chunk_a; chunk_b] None) "b" 1
    = Some (r :: rs) /\
    score r = (norm [1%R] / (norm [1%R] + eps))%R.
Proof.
  apply (@self_similarity_is_maximal unit tt constant_encoder argsort_stable 1
           (fun _ => [1%R]) (fun ts => eq_refl) (fun t => eq_refl)
           argsort_stable_contract [chunk_a; chunk_b] None 1 chunk_b 1).
  - reflexivity.
  - lia.
Defined.

End RagMore.

(* ===================================================================== *)
(** * Properties of app/main.py *)
(* ===================================================================== *)

Module MainFacts.
Import RagUtils RagObs RagFacts RagMore MainApp.

Lemma substring_0_length n s : String.length (String.substring 0 n s) <= n.
Proof.
  revert s. induction n as [|n IH]; intros [|c s]; cbn; try lia.
  specialize (IH s). lia.
Qed.

Lemma substring_0_prefix n s : String.prefix (String.substring 0 n s) s = true.
Proof.
  revert s. induction n as [|n IH]; intros [|c s]; cbn; try reflexivity.
  rewrite IH. destruct (ascii_dec c c); [reflexivity|contradiction].
Qed.

Section Handlers.

Context {Metadata : Type} (empty_metadata : Metadata).
Variable encode : list string -> ndarray.
Variable argsort : list R -> list nat.
Variable load_text_file : string -> option (list (Document Metadata)).
Variable split_docs : list (Document Metadata) -> option (list (Document Metadata)).

Let ingest := ingest_docs Metadata empty_metadata encode load_text_file split_docs.
Let ask := query_docs Metadata encode argsort.

(** X23. [POST /ingest] answers 404 exactly when the sample file is missing;
    and whenever it does not answer with its dictionary (404, or the loader
    or the splitter raising), [INDEX] and [RETRIEVER] stay as they were, so
    an index built earlier keeps serving queries. *)
Theorem failed_ingest_keeps_index (app : App Metadata) :
  ((ingest app).1 = HTTPError 404 "No sample file found in app/sample_docs/"
   <-> sample_exists Metadata app = false) /\
  ((forall r, (ingest app).1 <> Reply r) -> (ingest app).2 = app).
Proof.
  unfold ingest, ingest_docs.
  destruct (sample_exists Metadata app); cbn [negb].
  - destruct (load_text_file SAMPLE_DOC_PATH) as [docs|];
      [destruct (split_docs docs) as [chunks|]|]; cbn [fst snd];
      (split; [split; discriminate|]); try reflexivity.
    intros Hno. exfalso. eapply Hno. reflexivity.
  - cbn [fst snd]. split; [tauto|reflexivity].
Qed.

Let calls := ingest_calls Metadata empty_metadata encode load_text_file split_docs.

(** A [POST /ingest] that answers with its dictionary has built a retriever;
    any other leaves the globals alone. *)
Lemma ingest_docs_retriever (app : App Metadata) :
  match (ingest app).1 with
  | Reply _ => RETRIEVER Metadata (ingest app).2 <> None
  | _ => RETRIEVER Metadata (ingest app).2 = RETRIEVER Metadata app
  end.
Proof.
  unfold ingest, ingest_docs.
  destruct (sample_exists Metadata app); cbn [negb fst snd]; [|reflexivity].
  destruct (load_text_file SAMPLE_DOC_PATH) as [docs|]; [|reflexivity].
  destruct (split_docs docs) as [chunks|]; [|reflexivity].
  cbn [fst snd RETRIEVER]. discriminate.
Qed.

(** Once built, a retriever is never taken away. *)
Lemma ingest_docs_keeps_retriever (app : App Metadata) :
  RETRIEVER Metadata app <> None -> RETRIEVER Metadata (ingest app).2 <> None.
Proof.
  intros Hr. pose proof (ingest_docs_retriever app) as H.
  destruct ((ingest app).1); [exact H|rewrite H; exact Hr..].
Qed.

Lemma ingest_calls_retriever samples (app : App Metadata) :
  RETRIEVER Metadata (calls samples app).2 = None <->
  RETRIEVER Metadata app = None /\
  Forall (fun r => forall resp, r <> Reply resp) (calls samples app).1.
Proof.
  revert app. induction samples as [|sample samples IH]; intros app.
  - cbn. split; [intros Hn; split; [exact Hn|constructor]|tauto].
  - unfold calls in *. cbn [ingest_calls].
    pose proof (ingest_docs_retriever (with_sample Metadata sample app)) as Hstep.
    pose proof (ingest_docs_keeps_retriever (with_sample Metadata sample app)) as Hkeep.
    unfold ingest in Hstep, Hkeep.
    destruct (ingest_docs Metadata empty_metadata encode load_text_file split_docs
                (with_sample Metadata sample app)) as [r app1].
    specialize (IH app1).
    destruct (ingest_calls Metadata empty_metadata encode load_text_file split_docs
                samples app1) as [rs app2].
    cbn [fst snd] in *. change (RETRIEVER Metadata (with_sample Metadata sample app))
      with (RETRIEVER Metadata app) in *.
    rewrite IH. split.
    + intros [Hn Hall]. destruct r as [resp| |].
      * contradiction.
      * rewrite Hstep in Hn. split; [exact Hn|]. constructor; [discriminate|exact Hall].
      * rewrite Hstep in Hn. split; [exact Hn|]. constructor; [discriminate|exact Hall].
    + intros [Hn Hall]. apply Forall_cons_iff in Hall as [Hr Hall].
      split; [|exact Hall]. destruct r as [resp| |].
      * exfalso. exact (Hr resp eq_refl).
      * rewrite Hstep. exact Hn.
      * rewrite Hstep. exact Hn.
Qed.

(** X24. [POST /query] answers 400 exactly when no retriever has been built,
    which in a running module is exactly when no [POST /ingest] has
    succeeded yet: after any sequence of [POST /ingest] requests to a module
    just started, [RETRIEVER] is [None] if and only if none of them was
    answered with its dictionary. *)
Theorem query_without_index_is_400 request sample samples :
  let run := calls samples (startup Metadata sample) in
  ((exists detail, ask request run.2 = HTTPError 400 detail) <->
   RETRIEVER Metadata run.2 = None) /\
  (RETRIEVER Metadata run.2 = None <->
   Forall (fun r => forall resp, r <> Reply resp) run.1).
Proof.
  cbv zeta. split.
  - unfold ask, query_docs.
    destruct (RETRIEVER Metadata (calls samples (startup Metadata sample)).2) as [r|].
    + split; [|discriminate]. intros [detail Hd].
      destruct (get_relevant_documents Metadata encode argsort r _ _); discriminate.
    + split; [reflexivity|]. eauto.
  - rewrite ingest_calls_retriever. cbn [startup RETRIEVER]. tauto.
Qed.

Variable d : nat.
Hypothesis encode_ok : encoder_contract encode d.
Hypothesis argsort_ok : argsort_contract argsort.

(** X25. The two endpoints together: when the sample file is there and the
    loader and the splitter return [chunks], [POST /ingest] reports their
    number, and a following [POST /query] with [k >= 1] answers with
    [min(k, n)] strings, each the first 200 characters (at most) of the text
    of one of the chunks. *)
Theorem ingest_then_query docs chunks request (app : App Metadata) :
  sample_exists Metadata app = true ->
  load_text_file SAMPLE_DOC_PATH = Some docs ->
  split_docs docs = Some chunks ->
  (1 <= request_k request)%Z ->
  exists app' tops,
    ingest app =
      (Reply (mkIngestResponse "Index built successfully!" (Z.of_nat (length chunks))),
       app') /\
    ask request app' = Reply (mkQueryResponse (request_query request) tops) /\
    length tops = Nat.min (Z.to_nat (request_k request)) (length chunks) /\
    Forall (fun t => String.length t <= 200 /\
                     exists c, In c chunks /\
                               t = String.substring 0 200 (page_content Metadata c))
           tops.
Proof.
  intros He Hl Hs Hk. unfold ingest, ask, ingest_docs, query_docs.
  rewrite He, Hl, Hs. cbn [negb].
  destruct (query_ranking empty_metadata encode argsort d encode_ok argsort_ok
              chunks None (request_query request) (request_k request))
    as (sims & _ & Hlen & _ & Hlt & _ & Hq).
  eexists _, _. split; [reflexivity|].
  cbn [RETRIEVER]. unfold get_relevant_documents, build_retriever. cbn [index].
  rewrite Hq.
  split; [reflexivity|]. rewrite !map_map. cbn [text d_page_content]. split.
  - rewrite length_map. unfold top_indices. rewrite slice_to_length by exact Hk.
    destruct (argsort_ok (map Ropp sims)) as [Hp _].
    rewrite (Permutation_length Hp), length_seq, length_map, Hlen. reflexivity.
  - apply List.Forall_forall. intros t Ht. apply in_map_iff in Ht as (i & <- & Hi).
    split; [apply substring_0_length|].
    apply Hlt in Hi.
    destruct (nth_error chunks i) as [c|] eqn:Ec; [|apply nth_error_None in Ec; lia].
    exists c. split; [eapply nth_error_In, Ec|]. f_equal.
    apply nth_error_nth, map_nth_error, Ec.
Qed.

(** X26. A retriever built on an index answers with the texts of the
    chunks that the query ranks, in that order: for [k >= 1] it returns
    [min(k, n)] documents, and the [page_content] of each is the text of one
    of the indexed chunks. *)
Theorem retriever_returns_chunk_texts chunks pd query k :
  (1 <= k)%Z ->
  exists docs,
    get_relevant_documents Metadata encode argsort
      (build_retriever Metadata
         (create_or_load_index Metadata empty_metadata encode chunks pd)) query k
    = Some docs /\
    length docs = Nat.min (Z.to_nat k) (length chunks) /\
    Forall (fun doc => exists c, In c chunks /\
                                 d_page_content doc = page_content Metadata c) docs.
Proof.
  intros Hk. unfold get_relevant_documents, build_retriever. cbn [index].
  destruct (query_ranking empty_metadata encode argsort d encode_ok argsort_ok
              chunks pd query k) as (sims & _ & Hlen & _ & Hlt & _ & ->).
  eexists. split; [reflexivity|]. rewrite map_map. cbn [text]. split.
  - rewrite length_map. unfold top_indices. rewrite slice_to_length by exact Hk.
    destruct (argsort_ok (map Ropp sims)) as [Hp _].
    rewrite (Permutation_length Hp), length_seq, length_map, Hlen. reflexivity.
  - apply List.Forall_forall. intros doc Hdoc.
    apply in_map_iff in Hdoc as (i & <- & Hi). cbn [d_page_content].
    apply Hlt in Hi.
    destruct (nth_error chunks i) as [c|] eqn:Ec; [|apply nth_error_None in Ec; lia].
    exists c. split; [eapply nth_error_In, Ec|].
    apply nth_error_nth, map_nth_error, Ec.
Qed.

End Handlers.

Lemma failed_ingest_keeps_index_witness :
  (ingest_docs unit tt constant_encoder (fun _ => None) (fun docs => Some docs)
     (mkApp unit true None None)).2 = mkApp unit true None None.
Proof.
  apply (@failed_ingest_keeps_index unit tt constant_encoder (fun _ => None)
           (fun docs => Some docs) (mkApp unit true None None)).
  intros r. discriminate.
Defined.

Lemma query_without_index_is_400_witness :
  (exists detail,
     query_docs unit constant_encoder argsort_stable (mkQueryRequest "q" 3)
       (ingest_calls unit tt constant_encoder (fun _ => Some [chunk_a; chunk_b])
          (fun docs => Some docs) [false; false] (startup unit false)).2
     = HTTPError 400 detail) /\
  ~ (exists detail,
       query_docs unit constant_encoder argsort_stable (mkQueryRequest "q" 3)
         (ingest_calls unit tt constant_encoder (fun _ => Some [chunk_a; chunk_b])
            (fun docs => Some docs) [false; true; false] (startup unit false)).2
       = HTTPError 400 detail).
Proof.
  split.
  - apply (@query_without_index_is_400 unit tt constant_encoder argsort_stable
             (fun _ => Some [chunk_a; chunk_b]) (fun docs => Some docs)
             (mkQueryRequest "q" 3) false [false; false]).
    apply (@query_without_index_is_400 unit tt constant_encoder argsort_stable
             (fun _ => Some [chunk_a; chunk_b]) (fun docs => Some docs)
             (mkQueryRequest "q" 3) false [false; false]).
    repeat constructor; discriminate.
  - intros H400.
    apply (@query_without_index_is_400 unit tt constant_encoder argsort_stable
             (fun _ => Some [chunk_a; chunk_b]) (fun docs => Some docs)
             (mkQueryRequest "q" 3) false [false; true; false]) in H400.
    apply (@query_without_index_is_400 unit tt constant_encoder argsort_stable
             (fun _ => Some [chunk_a; chunk_b]) (fun docs => Some docs)
             (mkQueryRequest "q" 3) false [false; true; false]) in H400.
    apply Forall_inv_tail, Forall_inv in H400. eapply H400. reflexivity.
Defined.

Lemma ingest_then_query_witness :
  exists app' tops,
    ingest_docs unit tt constant_encoder (fun _ => Some [chunk_a; chunk_b])
      (fun docs => Some docs) (startup unit true) =
      (Reply (mkIngestResponse "Index built successfully!" 2), app') /\
    query_docs unit constant_encoder argsort_stable (mkQueryRequest "q" 3) app' =
      Reply (mkQueryResponse "q" tops) /\
    length tops = 2.
Proof.
  destruct (@ingest_then_query unit tt constant_encoder argsort_stable
              (fun _ => Some [chunk_a; chunk_b]) (fun docs => Some docs) 1
              constant_encoder_contract argsort_stable_contract
              [chunk_a; chunk_b] [chunk_a; chunk_b] (mkQueryRequest "q" 3)
              (startup unit true) eq_refl eq_refl eq_refl)
    as (app' & tops & Hi & Hq & Hlen & _).
  - cbn. lia.
  - exists app', tops. split; [exact Hi|]. split; [exact Hq|exact Hlen].
Defined.

Lemma retriever_returns_chunk_texts_witness :
  exists docs,
    get_relevant_documents unit constant_encoder argsort_stable
      (build_retriever unit
         (create_or_load_index unit tt constant_encoder [chunk_a; chunk_b] None))
      "What is RAG and why is it useful?" 2
    = Some docs /\
    length docs = 2.
Proof.
  destruct (@retriever_returns_chunk_texts unit tt constant_encoder argsort_stable 1
              constant_encoder_contract argsort_stable_contract
              [chunk_a; chunk_b] None "What is RAG and why is it useful?" 2)
    as (docs & Hd & Hlen & _); [lia|].
  exists docs. split; [exact Hd|exact Hlen].
Defined.

End MainFacts.
